(** * ClassVectorParameterUI: a model of the class-list editing widget

    Shallow embedding of [IECoreMaya/ClassVectorParameterUI.py].  The widget
    keeps a registry of child row widgets ([__childUIs]) in step with the
    ordered class list stored by the host, and commits edits of that list
    through the host's parameterised-holder facade.

    Python code that mutates [self], calls into the host and may raise is
    written in a small monad that threads the world, collects the host calls
    that matter as a trace of events, and keeps the world reached when an
    exception escapes (Python does not roll anything back). *)

From stdpp Require Import base gmap sets list strings pretty.
From Stdlib Require Import ZArith Lia.

Set Warnings "-clear-no-such-hyp".

(** ** Exceptions, outcomes and the monad *)

Inductive Exception :=
  | RuntimeError (msg : string)
  | KeyError (key : string)
  | IndexError
  | AttributeError (attr : string).

Inductive outcome (A : Type) :=
  | Ret (a : A)
  | Raise (e : Exception).
Arguments Ret {A} a.
Arguments Raise {A} e.

(** ** Data model *)

(** One element of [[ c[1:] for c in self.parameter.getClasses( True ) ]]:
    the tuple [( parameterName, className, classVersion )]. *)
Record ClassEntry := mkEntry {
  entryName : string;
  entryClass : string;
  entryVersion : Z;
}.

Global Instance ClassEntry_eq_dec : EqDecision ClassEntry.
Proof. solve_decision. Defined.

(** A [ChildUI] as the container sees it: the name of its top level layout
    and the two attributes [__className] and [__classVersion] that
    [__updateChildUIs] stores on it. *)
Record ChildUI := mkChildUI {
  topLevelUI : nat;
  className : string;
  classVersion : Z;
}.

Global Instance ChildUI_eq_dec : EqDecision ChildUI.
Proof. solve_decision. Defined.

(** Controls and edges named in the [formLayout] attachment lists. *)
Inductive Control := AddButton | ChildControl (ui : nat).
Inductive Edge := Left | Right | Top | Bottom.

Record Attachments := mkAttachments {
  attachForm : list (Control * Edge * Z);
  attachControl : list (Control * Edge * Z * Control);
  attachNone : list (Control * Edge);
}.

(** Host calls recorded in the trace. *)
Inductive Event :=
  | EvDeleteUI (ui : nat)
  | EvCreateChildUI (parameterName : string) (ui : nat)
  | EvFormLayout (a : Attachments)
  | EvSetClasses (classes : list ClassEntry)
  | EvSetLabel (control : nat) (label : string).

(** The world: what the host stores and what the widget stores.
    [hostClasses] is what [self.parameter.getClasses( True )] returns (without
    the class instances), [parameterPlugs] the plugs the holder can resolve
    by parameter name, [childUIs] the dict [self.__childUIs], [nextUI] the
    next layout name the host hands out and [hierarchyDepth] the entry
    [self.__kw["hierarchyDepth"]]. *)
Record World := mkWorld {
  hostClasses : list ClassEntry;
  parameterPlugs : gmap string nat;
  childUIs : gmap string ChildUI;
  nextUI : nat;
  hierarchyDepth : Z;
}.

Definition set_hostClasses (cs : list ClassEntry) (w : World) : World :=
  mkWorld cs (parameterPlugs w) (childUIs w) (nextUI w) (hierarchyDepth w).
Definition set_childUIs (m : gmap string ChildUI) (w : World) : World :=
  mkWorld (hostClasses w) (parameterPlugs w) m (nextUI w) (hierarchyDepth w).
Definition set_nextUI (n : nat) (w : World) : World :=
  mkWorld (hostClasses w) (parameterPlugs w) (childUIs w) n (hierarchyDepth w).

Definition M (A : Type) : Type := World → outcome A * World * list Event.

Definition ret {A} (a : A) : M A := λ w, (Ret a, w, []).
Definition raise {A} (e : Exception) : M A := λ w, (Raise e, w, []).
Definition bind {A B} (m : M A) (f : A → M B) : M B := λ w,
  match m w with
  | (Ret a, w1, t1) =>
      match f a w1 with (r, w2, t2) => (r, w2, t1 ++ t2) end
  | (Raise e, w1, t1) => (Raise e, w1, t1)
  end.

Global Instance M_ret : MRet M := @ret.
Global Instance M_bind : MBind M := λ A B f m, bind m f.

Definition gets {A} (f : World → A) : M A := λ w, (Ret (f w), w, []).
Definition modify (f : World → World) : M unit := λ w, (Ret tt, f w, []).
Definition emit (e : Event) : M unit := λ w, (Ret tt, w, [e]).

(** [try : m except : h] with a bare [except]. *)
Definition try_except {A} (m : M A) (h : M A) : M A := λ w,
  match m w with
  | (Ret a, w1, t1) => (Ret a, w1, t1)
  | (Raise _, w1, t1) =>
      match h w1 with (r, w2, t2) => (r, w2, t1 ++ t2) end
  end.

(** [for x in l : body x] *)
Fixpoint for_ {A} (l : list A) (body : A → M unit) : M unit :=
  match l with
  | [] => ret tt
  | x :: l' => body x;; for_ l' body
  end.

Definition names (classes : list ClassEntry) : list string :=
  entryName <$> classes.

Section ClassVectorParameterUI.

(** [IECoreMaya.CompoundParameterUI._labelIndent], which is not part of this
    file. *)
Variable labelIndent : Z → Z.

(** ** Host calls *)

(** [maya.cmds.deleteUI( ui )] *)
Definition deleteUI (ui : nat) : M unit := emit (EvDeleteUI ui).

(** [ChildUI( self.parameter[parameterName], **self.__kw )].  The lookup
    [self.parameter[parameterName]] and the constructor's own [__class()]
    search of [getClasses( True )] both need the name to be held by the host;
    the new top level layout gets the next name of the host. *)
Definition newChildUI (parameterName : string) : M nat :=
  held ← gets (λ w, bool_decide (parameterName ∈ names (hostClasses w)));
  if held : bool then
    ui ← gets nextUI;
    modify (set_nextUI (S ui));;
    emit (EvCreateChildUI parameterName ui);;
    mret ui
  else raise (KeyError parameterName).

(** [self.__childUIs[parameterName]] *)
Definition getChildUI (parameterName : string) : M ChildUI :=
  o ← gets (λ w, childUIs w !! parameterName);
  match o with
  | Some ui => mret ui
  | None => raise (KeyError parameterName)
  end.

(** Modelled from the spec: [fnPH.setClassVectorParameterClasses], the commit
    of a class list through the host facade; the holder is not part of this
    file.  It stores the list, which later [getClasses] calls return. *)
Definition setClassVectorParameterClasses (classes : list ClassEntry) : M unit :=
  modify (set_hostClasses classes);;
  emit (EvSetClasses classes).

(** ** [__updateChildUIs] *)

(** The first loop: delete any uis for parameters which have disappeared. *)
Definition deleteDisappeared (parameterNamesSet : gset string)
    (startFromScratch : bool) (parameterName : string) : M unit :=
  if bool_decide (parameterName ∉ parameterNamesSet) || startFromScratch then
    ui ← getChildUI parameterName;
    deleteUI (topLevelUI ui);;
    modify (λ w, set_childUIs (delete parameterName (childUIs w)) w)
  else mret tt.

(** One round of the second loop, for [classes[i]]; [prevChildUI] and the
    three attachment lists are the loop's local variables. *)
Definition layoutChild (i : nat) (c : ClassEntry)
    (st : option ChildUI * Attachments) : M (option ChildUI * Attachments) :=
  let '(prevChildUI, a) := st in
  let parameterName := entryName c in
  childUI ← gets (λ w, childUIs w !! parameterName);
  childUI ← match childUI with
            | Some ui =>
                if bool_decide (className ui ≠ entryClass c)
                   || bool_decide (classVersion ui ≠ entryVersion c)
                then deleteUI (topLevelUI ui);; mret None
                else mret (Some ui)
            | None => mret None
            end;
  childUI ← match childUI with
            | Some ui => mret ui
            | None =>
                t ← newChildUI parameterName;
                let ui := mkChildUI t (entryClass c) (entryVersion c) in
                modify (λ w, set_childUIs (<[parameterName := ui]> (childUIs w)) w);;
                mret ui
            end;
  let this := ChildControl (topLevelUI childUI) in
  let form := attachForm a ++ [(this, Left, 0%Z); (this, Right, 0%Z)] in
  fc ← match i, prevChildUI with
       | O, _ => mret (form ++ [(this, Top, 5%Z)], attachControl a)
       | S _, Some prev =>
           mret (form, attachControl a
                         ++ [(this, Top, 0%Z, ChildControl (topLevelUI prev))])
       | S _, None => raise (AttributeError "_topLevelUI")
       end;
  mret (Some childUI,
        mkAttachments fc.1 fc.2 (attachNone a ++ [(this, Bottom)])).

(** [for i in range( 0, len( classes ) )], reading [classes[i]]: the list,
    which the loop does not change, is walked with the running index. *)
Fixpoint layoutChildren (i : nat) (classes : list ClassEntry)
    (st : option ChildUI * Attachments) : M (option ChildUI * Attachments) :=
  match classes with
  | [] => mret st
  | c :: rest => st' ← layoutChild i c st; layoutChildren (S i) rest st'
  end.

(** [classes] is [None] or a list.  [self.__childUIs.keys()] is the list of
    keys taken before the first loop starts, so the loop may delete from the
    dict (the file is Python 2). *)
Definition __updateChildUIs (classes : option (list ClassEntry))
    (startFromScratch : bool) : M unit :=
  classes ← match classes with
            | None => gets hostClasses
            | Some cs => mret cs
            end;
  let parameterNamesSet : gset string := list_to_set (names classes) in
  keys ← gets (λ w, (map_to_list (childUIs w)).*1);
  for_ keys (deleteDisappeared parameterNamesSet startFromScratch);;
  depth ← gets hierarchyDepth;
  let a := mkAttachments
             [(AddButton, Left, (20 + labelIndent (depth + 1))%Z); (AddButton, Bottom, 5%Z)]
             [] [] in
  st ← layoutChildren 0 classes (None, a);
  let '(prevChildUI, a) := st in
  let a := match prevChildUI with
           | Some prev =>
               mkAttachments (attachForm a)
                 (attachControl a ++ [(AddButton, Top, 5%Z, ChildControl (topLevelUI prev))])
                 (attachNone a)
           | None =>
               mkAttachments (attachForm a ++ [(AddButton, Top, 5%Z)])
                 (attachControl a) (attachNone a)
           end in
  emit (EvFormLayout a).

(** [_classesSetCallback], for the one instance whose parameter is the one
    the host reports. *)
Definition _classesSetCallback : M unit := __updateChildUIs None false.

(** [[ c[1:] for c in self.parameter.getClasses( True ) if c[1] != parameterName ]];
    [parameterName] is a Python value that is [None] or a string. *)
Definition classesWithout (parameterName : option string)
    (classes : list ClassEntry) : list ClassEntry :=
  filter (λ c, Some (entryName c) ≠ parameterName) classes.

Definition _removeClass (parameterName : option string) : M unit :=
  classes ← gets (λ w, classesWithout parameterName (hostClasses w));
  __updateChildUIs (Some classes) false;;
  setClassVectorParameterClasses classes.

(** The search loop of [_setClass]: the index at which it breaks. *)
Definition findParameter (parameterName : string)
    (classes : list ClassEntry) : option nat :=
  fst <$> list_find (λ c, entryName c = parameterName) classes.

(** ["p%d" % i] *)
Definition pName (i : nat) : string := "p" +:+ pretty i.

(** The naming loop of [_setClass] over the indices still to try;
    [parameterName] is the value the loop variable has so far. *)
Fixpoint newParameterName (parameterNames : gset string) (indices : list nat)
    (parameterName : string) : string :=
  match indices with
  | [] => parameterName
  | i :: rest =>
      let parameterName := pName i in
      if bool_decide (parameterName ∉ parameterNames) then parameterName
      else newParameterName parameterNames rest parameterName
  end.

(** Truth value of [parameterName] in [if parameterName :]. *)
Definition truthy (parameterName : option string) : bool :=
  match parameterName with
  | Some s => bool_decide (s ≠ EmptyString)
  | None => false
  end.

Definition dquote : string := String (Ascii.ascii_of_nat 34) EmptyString.

(** ["Parameter \"%s\" not present" % parameterName] *)
Definition notPresent (parameterName : string) : string :=
  "Parameter " +:+ dquote +:+ parameterName +:+ dquote +:+ " not present".

Definition _setClass (parameterName : option string) (className : string)
    (classVersion : Z) : M unit :=
  classesWithoutThis ← gets (λ w, classesWithout parameterName (hostClasses w));
  __updateChildUIs (Some classesWithoutThis) false;;
  classes ← gets hostClasses;
  classes ←
    (if truthy parameterName then
       let parameterName := default EmptyString parameterName in
       match findParameter parameterName classes with
       | None => raise (RuntimeError (notPresent parameterName))
       | Some i => mret (<[i := mkEntry parameterName className classVersion]> classes)
       end
     else
       let parameterNames : gset string := list_to_set (names classes) in
       let parameterName :=
         newParameterName parameterNames (seq 0 (length classes + 1))
           (default EmptyString parameterName) in
       mret (classes ++ [mkEntry parameterName className classVersion]));
  setClassVectorParameterClasses classes.


(** ** [ChildUI.__moveLayer] *)

(** Python's [l[i]] and [del l[i]]: the position an integer index denotes,
    counting from the end when negative; [None] where Python raises
    [IndexError]. *)
Definition pyIndex {A} (l : list A) (i : Z) : option nat :=
  let n := Z.of_nat (length l) in
  if bool_decide (0 ≤ i < n)%Z then Some (Z.to_nat i)
  else if bool_decide (- n ≤ i < 0)%Z then Some (Z.to_nat (i + n))
  else None.

(** Python's clamping of a slice bound, as in [l[i:i] = ...]. *)
Definition pySliceBound {A} (l : list A) (i : Z) : nat :=
  let n := Z.of_nat (length l) in
  if bool_decide (i < 0)%Z then Z.to_nat (Z.max 0 (i + n))
  else Z.to_nat (Z.min i n).

(** [l[i:i] = [ x ]] *)
Definition pySliceInsert {A} (l : list A) (i : Z) (x : A) : list A :=
  let k := pySliceBound l i in take k l ++ [x] ++ drop k l.

Definition __moveLayer (oldIndex newIndex : Z) : M unit :=
  classes ← gets hostClasses;
  match pyIndex classes oldIndex with
  | None => raise IndexError
  | Some o =>
      match classes !! o with
      | None => raise IndexError
      | Some cl =>
          let classes := delete o classes in
          let classes := pySliceInsert classes newIndex cl in
          setClassVectorParameterClasses classes
      end
  end.

(** ** [ChildUI.__attributeChanged] *)

(** A header parameter shown with a preset menu: its name and what
    [getCurrentPresetName()] returns. *)
Record PresetParameter := mkPreset {
  presetParameterName : string;
  currentPresetName : string;
}.

(** The two parallel lists [__presetParameters] and [__presetUIs] of a
    [ChildUI]. *)
Record PresetBindings := mkBindings {
  presetParameters : list PresetParameter;
  presetUIs : list nat;
}.

(** [fnPH.parameterPlug( parameter )]; it raises when the holder has no plug
    for the parameter. *)
Definition parameterPlug (parameter : PresetParameter) : M nat :=
  o ← gets (λ w, parameterPlugs w !! presetParameterName parameter);
  match o with
  | Some plug => mret plug
  | None => raise (RuntimeError "parameter plug not found")
  end.

Definition __updatePresetLabel (self : PresetBindings) (index : nat) : M unit :=
  match presetUIs self !! index with
  | None => raise IndexError
  | Some control =>
      match presetParameters self !! index with
      | None => raise IndexError
      | Some parameter => emit (EvSetLabel control (currentPresetName parameter))
      end
  end.

(** [enumerate( l )] *)
Definition enumerate {A} (l : list A) : list (nat * A) := imap pair l.

(** [kAttributeSet] is the host's [maya.OpenMaya.MNodeMessage.kAttributeSet]. *)
Definition __attributeChanged (kAttributeSet : Z) (self : PresetBindings)
    (changeType : Z) (plug : nat) : M unit :=
  if bool_decide (Z.land changeType kAttributeSet = 0%Z) then mret tt
  else
    for_ (enumerate (presetParameters self)) (λ '(index, parameter),
      myPlug ← try_except (p ← parameterPlug parameter; mret (Some p)) (mret None);
      match myPlug with
      | None => mret tt
      | Some myPlug =>
          if bool_decide (plug = myPlug) then __updatePresetLabel self index
          else mret tt
      end).

(** ** Optional user data *)

(** The values found under [parameter.userData()]. *)
#[warnings="-register-all"]
Inductive Object :=
  | BoolData (b : bool)
  | StringData (s : string)
  | IntData (z : Z)
  | CompoundObject (members : gmap string Object).

(** What [.value] gives. *)
Inductive Value :=
  | VBool (b : bool)
  | VString (s : string)
  | VInt (z : Z).

(** [o[key]] *)
Definition getItem (o : Object) (key : string) : M Object :=
  match o with
  | CompoundObject members =>
      match members !! key with
      | Some x => mret x
      | None => raise (KeyError key)
      end
  | _ => raise (AttributeError "__getitem__")
  end.

(** [o.value] *)
Definition value (o : Object) : M Value :=
  match o with
  | BoolData b => mret (VBool b)
  | StringData s => mret (VString s)
  | IntData z => mret (VInt z)
  | CompoundObject _ => raise (AttributeError "value")
  end.

(** [x = default] followed by
    [with IECore.IgnoredExceptions( KeyError ) : x = body]: the value of [x]
    afterwards. *)
Definition ignoringKeyError {A} (default : A) (body : M A) : M A := λ w,
  match body w with
  | (Raise (KeyError _), w1, t1) => (Ret default, w1, t1)
  | r => r
  end.

(** [parameter.userData()["UI"][key].value] *)
Definition uiValue (userData : Object) (key : string) : M Value :=
  ui ← getItem userData "UI";
  x ← getItem ui key;
  value x.

(** [collapsable] in [ClassVectorParameterUI.__init__] *)
Definition collapsable (userData : Object) : M Value :=
  ignoringKeyError (VBool true) (uiValue userData "collapsable").

(** [classNameFilter] in [__classMenuDefinition] *)
Definition classNameFilter (userData : Object) : M Value :=
  try_except (uiValue userData "classNameFilter") (mret (VString "*")).

(** [forHeader] in [__drawHeaderParameterControls] *)
Definition forHeader (userData : Object) (uiKey : string) : M Value :=
  ignoringKeyError (VBool false) (uiValue userData uiKey).

(** ** Notions used in the statements *)

(** Whether the first loop deletes the ui registered under [k]. *)
Definition doomed (S : gset string) (scratch : bool) (k : string) : bool :=
  bool_decide (k ∉ S) || scratch.
Arguments doomed : simpl never.

Definition survivors (S : gset string) (scratch : bool)
    (m : gmap string ChildUI) : gmap string ChildUI :=
  filter (λ kv, doomed S scratch kv.1 = false) m.

Definition deletions (S : gset string) (scratch : bool)
    (kvs : list (string * ChildUI)) : list Event :=
  (λ kv, EvDeleteUI (topLevelUI kv.2)) <$> filter (λ kv, doomed S scratch kv.1 = true) kvs.

(** The widget's class is the entry's. *)
Definition sameClass (ui : ChildUI) (c : ClassEntry) : Prop :=
  className ui = entryClass c ∧ classVersion ui = entryVersion c.

Global Instance sameClass_dec ui c : Decision (sameClass ui c).
Proof. unfold sameClass. apply _. Defined.

(** The world after a child ui for [c] has been built and registered. *)
Definition built (c : ClassEntry) (w : World) : World :=
  mkWorld (hostClasses w) (parameterPlugs w)
    (<[entryName c := mkChildUI (nextUI w) (entryClass c) (entryVersion c)]> (childUIs w))
    (S (nextUI w)) (hierarchyDepth w).

(** The second loop as a relation: [Layout cs w res w' tr] says that walking
    the entries [cs] from world [w] ends in [w'] with trace [tr], having
    completed ([res = None]) or raised ([res = Some e]).  An entry whose ui is
    registered with the same class is reused; otherwise the stale ui, if any,
    is deleted and a new one is built, which fails when the host does not
    hold the name. *)
Inductive Layout : list ClassEntry → World → option Exception → World → list Event → Prop :=
  | Layout_done w :
      Layout [] w None w []
  | Layout_reuse c cs w ui res w' tr :
      childUIs w !! entryName c = Some ui →
      sameClass ui c →
      Layout cs w res w' tr →
      Layout (c :: cs) w res w' tr
  | Layout_rebuild c cs w ui res w' tr :
      childUIs w !! entryName c = Some ui →
      ¬ sameClass ui c →
      entryName c ∈ names (hostClasses w) →
      Layout cs (built c w) res w' tr →
      Layout (c :: cs) w res w'
        (EvDeleteUI (topLevelUI ui) :: EvCreateChildUI (entryName c) (nextUI w) :: tr)
  | Layout_rebuild_fail c cs w ui :
      childUIs w !! entryName c = Some ui →
      ¬ sameClass ui c →
      entryName c ∉ names (hostClasses w) →
      Layout (c :: cs) w (Some (KeyError (entryName c))) w [EvDeleteUI (topLevelUI ui)]
  | Layout_create c cs w res w' tr :
      childUIs w !! entryName c = None →
      entryName c ∈ names (hostClasses w) →
      Layout cs (built c w) res w' tr →
      Layout (c :: cs) w res w' (EvCreateChildUI (entryName c) (nextUI w) :: tr)
  | Layout_create_fail c cs w :
      childUIs w !! entryName c = None →
      entryName c ∉ names (hostClasses w) →
      Layout (c :: cs) w (Some (KeyError (entryName c))) w [].

(** The exception of an outcome, if any. *)
Definition raised {A} (r : outcome A) : option Exception :=
  match r with
  | Ret _ => None
  | Raise e => Some e
  end.

(** The class list a call of [__updateChildUIs] works on. *)
Definition effective (classes : option (list ClassEntry)) (w : World) : list ClassEntry :=
  default (hostClasses w) classes.

(** The world after the first loop. *)
Definition pruned (cs : list ClassEntry) (scratch : bool) (w : World) : World :=
  set_childUIs (survivors (list_to_set (names cs)) scratch (childUIs w)) w.

(** Every entry of [cs] has a ui registered under its name, of its class. *)
Definition agrees (m : gmap string ChildUI) (cs : list ClassEntry) : Prop :=
  ∀ c, c ∈ cs → ∃ ui, m !! entryName c = Some ui ∧ sameClass ui c.

Definition isDeleteUI (e : Event) : Prop := ∃ ui, e = EvDeleteUI ui.
Definition isCreateChildUI (e : Event) : Prop := ∃ n ui, e = EvCreateChildUI n ui.
Definition isSetClasses (e : Event) : Prop := ∃ cs, e = EvSetClasses cs.

(** Modelled from the spec: the host calls [_classesSetCallback] back once a
    class list has been committed (step 4 of the class-list mutation
    protocol; the registration is the last line of the file, the dispatch is
    the holder's). *)
Definition thenCallback (mutation : M unit) : M unit :=
  mutation;; _classesSetCallback.

(** Adding one entry, then one entry per element of a list, from the add
    button's menu: [_setClass( None, className, classVersion )]. *)
Definition addClass (className : string) (classVersion : Z) : M unit :=
  thenCallback (_setClass None className classVersion).

Definition addClasses (l : list (string * Z)) : M unit :=
  for_ l (λ cl, addClass cl.1 cl.2).

(** The uis the registry holds have names the host has already handed out,
    and no two entries share one. *)
Definition wfUIs (w : World) : Prop :=
  (∀ k ui, childUIs w !! k = Some ui → topLevelUI ui < nextUI w) ∧
  (∀ k1 k2 ui1 ui2,
     childUIs w !! k1 = Some ui1 → childUIs w !! k2 = Some ui2 →
     topLevelUI ui1 = topLevelUI ui2 → k1 = k2).

(** Reuse in place: the registry still holds the very same ui and the host
    was never asked to delete it. *)
Definition reused (n : string) (ui : ChildUI) (w' : World) (tr : list Event) : Prop :=
  childUIs w' !! n = Some ui ∧ EvDeleteUI (topLevelUI ui) ∉ tr.

(** Rebuilt: the registry holds a ui built during the run [tr], started when
    the host's next ui name was [next], for an entry of [cs] named [n]. *)
Definition rebuilt (n : string) (cs : list ClassEntry) (next : nat)
    (w' : World) (tr : list Event) : Prop :=
  ∃ t c, next ≤ t ∧ EvCreateChildUI n t ∈ tr ∧ c ∈ cs ∧ entryName c = n ∧
         childUIs w' !! n = Some (mkChildUI t (entryClass c) (entryVersion c)).

(** The label edits a change of [plug] calls for: one for each preset
    parameter, in order, whose plug the holder resolves to [plug]. *)
Definition presetLabelUpdates (self : PresetBindings) (plug : nat) (w : World) : list Event :=
  omap (λ ip : nat * PresetParameter,
          if bool_decide (parameterPlugs w !! presetParameterName ip.2 = Some plug)
          then (λ control, EvSetLabel control (currentPresetName ip.2))
                 <$> presetUIs self !! ip.1
          else None)
       (enumerate (presetParameters self)).

(** [userData] has no entry [["UI"][key]]: there is no ["UI"] member, or it
    is a compound without member [key]. *)
Definition lacks (userData : Object) (key : string) : Prop :=
  match userData with
  | CompoundObject members =>
      match members !! "UI" with
      | None => True
      | Some (CompoundObject ui) => ui !! key = None
      | Some _ => False
      end
  | _ => False
  end.

(** ** Sample worlds *)

(** A label indent to run the samples with. *)
Definition sampleIndent (depth : Z) : Z := (5 + 8 * depth)%Z.

(** A widget just built on an empty class vector. *)
Definition emptyWorld : World := mkWorld [] ∅ ∅ 0 0.

(** Three classes held by the host and shown by the widget, and one stale ui
    left under a name the host has dropped behind the widget's back. *)
Definition sampleWorld : World :=
  mkWorld
    [mkEntry "p0" "blur" 1; mkEntry "p1" "grade" 1; mkEntry "p2" "noise" 2]
    {[ "p0.strength" := 10; "p2.kind" := 12 ]}
    {[ "p0" := mkChildUI 0 "blur" 1; "p1" := mkChildUI 1 "grade" 1;
       "p2" := mkChildUI 2 "noise" 2; "p9" := mkChildUI 3 "matte" 1 ]}
    4 0.

(** The preset controls of one row: the second parameter's plug is gone. *)
Definition sampleBindings : PresetBindings :=
  mkBindings
    [mkPreset "p0.strength" "strong"; mkPreset "p1.mode" "add";
     mkPreset "p2.kind" "perlin"]
    [20; 21; 22].

(** The sample list drops [p2] and moves [p1] to version 2. *)
Definition sampleClasses : list ClassEntry :=
  [mkEntry "p0" "blur" 1; mkEntry "p1" "grade" 2].

(** The lists as [ChildUI.__init__] sets them, and the two [append] calls of
    the presets branch of [__drawHeaderParameterControl]. *)
Definition noPresets : PresetBindings := mkBindings [] [].

Definition appendPreset (parameter : PresetParameter) (control : nat)
    (self : PresetBindings) : PresetBindings :=
  mkBindings (presetParameters self ++ [parameter]) (presetUIs self ++ [control]).


(** The ui registered under [n] is one a reconciliation over [cs] keeps: it
    does not start from scratch and [cs] has an entry named [n] of the ui's
    class. *)
Definition kept (cs : list ClassEntry) (scratch : bool) (n : string)
    (ui : ChildUI) : Prop :=
  scratch = false ∧ ∃ c, c ∈ cs ∧ entryName c = n ∧ sameClass ui c.

(** The registry shows the class list [cs]: the names of [cs] are distinct,
    and the registry holds one ui for each, of the entry's class, and
    nothing else. *)
Definition shows (w : World) (cs : list ClassEntry) : Prop :=
  NoDup (names cs) ∧
  dom (childUIs w) = list_to_set (names cs) ∧
  agrees (childUIs w) cs.

(** The widget is in step with the host. *)
Definition synced (w : World) : Prop := shows w (hostClasses w).

(** ** The move entries of [ChildUI.__layerMenu] *)

(** One entry of the "Move" sub-menu: its path, the two arguments its command
    passes to [__moveLayer], and whether it is active. *)
Record MoveItem := mkMove {
  movePath : string;
  moveOld : Z;
  moveNew : Z;
  moveActive : bool;
}.

(** The four entries [__layerMenu] appends for the row at [layerIndex] (the
    position of the row's parameter name among [len( layerNames )] names). *)
Definition moveItems (layerIndex : Z) (len : Z) : list MoveItem :=
  [ mkMove "/Move/To Top" layerIndex 0 (bool_decide (layerIndex ≠ 0%Z));
    mkMove "/Move/Up" layerIndex (layerIndex - 1) (bool_decide (layerIndex >= 1)%Z);
    mkMove "/Move/Down" layerIndex (layerIndex + 1)
      (bool_decide (layerIndex < len - 1)%Z);
    mkMove "/Move/To Bottom" layerIndex (len - 1)
      (bool_decide (layerIndex < len - 1)%Z) ].

(** ** The layout a reconciliation asks for *)

(** The attachments of a column of child uis [hs], listed top to bottom,
    with the add button below: each child spans the form from left to right,
    the first hangs from the top of the form, every other from the child
    before it, and the add button from the last child (from the top of the
    form when there is none). *)
Definition columnForm (indent : Z) (hs : list nat) : list (Control * Edge * Z) :=
  [(AddButton, Left, (20 + indent)%Z); (AddButton, Bottom, 5%Z)]
  ++ concat (imap (λ j t,
       [(ChildControl t, Left, 0%Z); (ChildControl t, Right, 0%Z)]
       ++ match j with
          | O => [(ChildControl t, Top, 5%Z)]
          | S _ => []
          end) hs)
  ++ match hs with
     | [] => [(AddButton, Top, 5%Z)]
     | _ :: _ => []
     end.

Definition columnControl (hs : list nat) : list (Control * Edge * Z * Control) :=
  zip_with (λ t above, (ChildControl t, Top, 0%Z, ChildControl above)) (tail hs) hs
  ++ match last hs with
     | Some t => [(AddButton, Top, 5%Z, ChildControl t)]
     | None => []
     end.

Definition columnNone (hs : list nat) : list (Control * Edge) :=
  (λ t, (ChildControl t, Bottom)) <$> hs.

Definition column (indent : Z) (hs : list nat) : Attachments :=
  mkAttachments (columnForm indent hs) (columnControl hs) (columnNone hs).

(** ** The hierarchy depth in [ClassVectorParameterUI.__init__] *)

(** Truth value of what a user data entry holds, as in [if collapsable :]. *)
Definition valueTruthy (v : Value) : bool :=
  match v with
  | VBool b => b
  | VString s => bool_decide (s ≠ EmptyString)
  | VInt z => bool_decide (z ≠ 0%Z)
  end.

(** [self.__kw = kw.copy()] followed by
    [if collapsable : self.__kw["hierarchyDepth"] = self.__kw.get( "hierarchyDepth", -1 ) + 1];
    of the keyword arguments only the integer held under ["hierarchyDepth"]
    is of interest. *)
Definition initKw (collapsable : Value) (kw : gmap string Z) : gmap string Z :=
  if valueTruthy collapsable
  then <["hierarchyDepth" := (default (-1) (kw !! "hierarchyDepth") + 1)%Z]> kw
  else kw.

(** [self.__kw["hierarchyDepth"]] *)
Definition kwHierarchyDepth (kw : gmap string Z) : M Z :=
  match kw !! "hierarchyDepth" with
  | Some depth => mret depth
  | None => raise (KeyError "hierarchyDepth")
  end.

(** The depth [__init__] passes to [_labelIndent] and [_labelFont], from the
    parameter's user data and the keyword arguments. *)
Definition initHierarchyDepth (userData : Object) (kw : gmap string Z) : M Z :=
  c ← collapsable userData;
  kwHierarchyDepth (initKw c kw).

(** ** [ChildUI.__classIconName] *)

(** [key in o] *)
Definition contains (o : Object) (key : string) : M bool :=
  match o with
  | CompoundObject members => mret (bool_decide (is_Some (members !! key)))
  | _ => raise (AttributeError "__contains__")
  end.

(** The loop over [sources]; it returns as soon as a source has a true
    [["UI"]["icon"]] value. *)
Fixpoint iconFrom (sources : list Object) : M Value :=
  match sources with
  | [] => mret (VString "out_displayLayer")
  | data :: rest =>
      hasUI ← contains data "UI";
      hasIcon ← (if hasUI : bool
                 then ui ← getItem data "UI"; contains ui "icon"
                 else mret false);
      if hasIcon : bool then
        ui ← getItem data "UI";
        x ← getItem ui "icon";
        icon ← value x;
        if valueTruthy icon then mret icon else iconFrom rest
      else iconFrom rest
  end.

(** [blindData] and [userData] are [c.blindData()] and
    [c.parameters().userData()], [None] when the class has no such
    attribute. *)
Definition __classIconName (blindData userData : option Object) : M Value :=
  iconFrom (option_list blindData ++ option_list userData).

(** The icon a source names: the value under [["UI"]["icon"]], if there is
    one and it is true. *)
Definition iconOf (data : Object) : option Value :=
  match data with
  | CompoundObject members =>
      match members !! "UI" with
      | Some (CompoundObject ui) =>
          match ui !! "icon" with
          | Some (BoolData b) => if b then Some (VBool b) else None
          | Some (StringData s) =>
              if bool_decide (s ≠ EmptyString) then Some (VString s) else None
          | Some (IntData z) =>
              if bool_decide (z ≠ 0%Z) then Some (VInt z) else None
          | _ => None
          end
      | _ => None
      end
  | _ => None
  end.

(** A source the loop can read: a compound whose ["UI"] member, if any, is a
    compound whose ["icon"] member, if any, is plain data. *)
Definition readable (data : Object) : Prop :=
  match data with
  | CompoundObject members =>
      match members !! "UI" with
      | Some (CompoundObject ui) =>
          match ui !! "icon" with
          | Some (CompoundObject _) => False
          | _ => True
          end
      | Some _ => False
      | None => True
      end
  | _ => False
  end.

(** The sample world without the stale ui: the widget in step with the
    host. *)
Definition syncedWorld : World :=
  mkWorld
    [mkEntry "p0" "blur" 1; mkEntry "p1" "grade" 1; mkEntry "p2" "noise" 2]
    {[ "p0.strength" := 10; "p2.kind" := 12 ]}
    {[ "p0" := mkChildUI 0 "blur" 1; "p1" := mkChildUI 1 "grade" 1;
       "p2" := mkChildUI 2 "noise" 2 ]}
    3 0.


(** * Properties *)

(** ** Running the monad *)

Lemma bind_run {A B} (m : M A) (f : A → M B) w :
  (m ≫= f) w =
  match m w with
  | (Ret a, w1, t1) => match f a w1 with (r, w2, t2) => (r, w2, t1 ++ t2) end
  | (Raise e, w1, t1) => (Raise e, w1, t1)
  end.
Proof. reflexivity. Qed.

Ltac mrun :=
  cbv [mbind mret M_bind M_ret bind ret gets modify emit raise
       deleteUI newChildUI getChildUI setClassVectorParameterClasses];
  cbn [fst snd].

Lemma set_childUIs_id w : set_childUIs (childUIs w) w = w.
Proof. by destruct w. Qed.

(** ** The first loop of [__updateChildUIs] *)

Lemma deleteDisappeared_eq S scratch k :
  deleteDisappeared S scratch k =
  if doomed S scratch k then
    ui ← getChildUI k; deleteUI (topLevelUI ui);;
    modify (λ w, set_childUIs (delete k (childUIs w)) w)
  else mret tt.
Proof. reflexivity. Qed.

Lemma deleteLoop_run (S : gset string) scratch (kvs : list (string * ChildUI)) w :
  NoDup kvs.*1 →
  (∀ k ui, (k, ui) ∈ kvs → childUIs w !! k = Some ui) →
  for_ kvs.*1 (deleteDisappeared S scratch) w =
    (Ret tt,
     set_childUIs (filter (λ kv, kv.1 ∉ kvs.*1 ∨ doomed S scratch kv.1 = false)
                     (childUIs w)) w,
     deletions S scratch kvs).
Proof.
  revert w. induction kvs as [|[k ui] kvs IH]; intros w Hnd Hin.
  - simpl. unfold ret. f_equal. f_equal. rewrite <- (set_childUIs_id w) at 1.
    f_equal. symmetry. apply map_filter_id. intros i x _. left. set_solver.
  - inversion Hnd as [|?? Hk Hnd']; subst. simpl.
    rewrite bind_run, deleteDisappeared_eq. unfold deletions.
    rewrite filter_cons. cbn [fst snd].
    destruct (doomed S scratch k) eqn:Hd.
    + rewrite decide_True by done.
      unfold getChildUI. rewrite !bind_run. unfold gets at 1.
      rewrite (Hin k ui) by set_solver. simpl.
      rewrite IH; [|done|].
      * simpl. f_equal. f_equal. unfold set_childUIs. simpl. f_equal.
        apply map_eq. intros j. rewrite !map_lookup_filter.
        destruct (decide (j = k)) as [->|Hne].
        -- rewrite lookup_delete_eq. simpl. rewrite (Hin k ui) by set_solver. simpl.
           rewrite option_guard_False; [done|]. intros [H|H]; [set_solver|congruence].
        -- rewrite lookup_delete_ne by done. destruct (childUIs w !! j); simpl; [|done].
           apply option_guard_iff. set_solver.
      * intros k' ui' Hin'. simpl. rewrite lookup_delete_ne; [apply Hin; set_solver|].
        intros ->. apply Hk. apply list_elem_of_fmap. by exists (k', ui').
    + rewrite decide_False by done. simpl.
      rewrite IH; [|done|intros; apply Hin; set_solver].
      simpl. f_equal. f_equal. f_equal.
      apply map_filter_ext. intros j x Hj. simpl. split.
      * intros [H|H]; [|by right]. destruct (decide (j = k)) as [->|]; [by right|].
        left. set_solver.
      * intros [H|H]; [|by right]. left. set_solver.
Qed.

Lemma deletePhase_run (S : gset string) scratch w :
  for_ (map_to_list (childUIs w)).*1 (deleteDisappeared S scratch) w =
    (Ret tt, set_childUIs (survivors S scratch (childUIs w)) w,
     deletions S scratch (map_to_list (childUIs w))).
Proof.
  rewrite deleteLoop_run.
  - f_equal. f_equal. f_equal. apply map_filter_ext. intros k ui Hk. simpl.
    split; [|by right]. intros [H|H]; [|done]. exfalso. apply H.
    apply list_elem_of_fmap. exists (k, ui). split; [done|].
    by apply elem_of_map_to_list.
  - apply NoDup_fst_map_to_list.
  - intros k ui. apply elem_of_map_to_list.
Qed.

Lemma survivors_lookup S scratch (m : gmap string ChildUI) k :
  survivors S scratch m !! k =
  if doomed S scratch k then None else m !! k.
Proof.
  unfold survivors. rewrite map_lookup_filter.
  destruct (m !! k) as [ui|]; simpl; [|by destruct (doomed _ _ _)].
  destruct (doomed S scratch k) eqn:Hd.
  - by rewrite option_guard_False.
  - by rewrite option_guard_True.
Qed.

Lemma elem_of_deletions S scratch (m : gmap string ChildUI) e :
  e ∈ deletions S scratch (map_to_list m) ↔
  ∃ k ui, m !! k = Some ui ∧ doomed S scratch k = true ∧ e = EvDeleteUI (topLevelUI ui).
Proof.
  unfold deletions. rewrite list_elem_of_fmap. split.
  - intros [[k ui] [-> Hin]]. apply list_elem_of_filter in Hin as [Hd Hin].
    apply elem_of_map_to_list in Hin. by exists k, ui.
  - intros (k & ui & Hk & Hd & ->). exists (k, ui). split; [done|].
    apply list_elem_of_filter. split; [done|]. by apply elem_of_map_to_list.
Qed.

(** ** The second loop of [__updateChildUIs] *)

(** What one round does, by what the registry holds for the entry's name. *)
Lemma layoutChild_cases i c prev a w :
  i = 0 ∨ is_Some prev →
  match childUIs w !! entryName c with
  | Some ui =>
      if decide (sameClass ui c) then
        ∃ a', layoutChild i c (prev, a) w = (Ret (Some ui, a'), w, [])
      else if decide (entryName c ∈ names (hostClasses w)) then
        ∃ a', layoutChild i c (prev, a) w =
          (Ret (Some (mkChildUI (nextUI w) (entryClass c) (entryVersion c)), a'),
           built c w,
           [EvDeleteUI (topLevelUI ui); EvCreateChildUI (entryName c) (nextUI w)])
      else
        layoutChild i c (prev, a) w =
          (Raise (KeyError (entryName c)), w, [EvDeleteUI (topLevelUI ui)])
  | None =>
      if decide (entryName c ∈ names (hostClasses w)) then
        ∃ a', layoutChild i c (prev, a) w =
          (Ret (Some (mkChildUI (nextUI w) (entryClass c) (entryVersion c)), a'),
           built c w, [EvCreateChildUI (entryName c) (nextUI w)])
      else
        layoutChild i c (prev, a) w = (Raise (KeyError (entryName c)), w, [])
  end.
Proof.
  intros Hprev. unfold layoutChild. mrun.
  destruct (childUIs w !! entryName c) as [ui|] eqn:Hui.
  - destruct (decide (sameClass ui c)) as [[Hc Hv]|Hne].
    + rewrite !bool_decide_eq_false_2 by (by intros ?). mrun.
      destruct Hprev as [->|[p ->]]; [|destruct i]; simpl; eauto.
    + assert (bool_decide (className ui ≠ entryClass c)
               || bool_decide (classVersion ui ≠ entryVersion c) = true) as ->.
      { apply orb_true_iff. unfold sameClass in Hne.
        destruct (decide (className ui = entryClass c)).
        - right. apply bool_decide_eq_true. naive_solver.
        - left. by apply bool_decide_eq_true. }
      destruct (decide (entryName c ∈ names (hostClasses w))) as [Hh|Hh].
      * rewrite bool_decide_eq_true_2 by done. mrun.
        destruct Hprev as [->|[p ->]]; [|destruct i]; simpl; eauto.
      * rewrite bool_decide_eq_false_2 by done. done.
  - destruct (decide (entryName c ∈ names (hostClasses w))) as [Hh|Hh].
    + rewrite bool_decide_eq_true_2 by done. mrun.
      destruct Hprev as [->|[p ->]]; [|destruct i]; simpl; eauto.
    + rewrite bool_decide_eq_false_2 by done. done.
Qed.

Lemma layoutChildren_cons i c cs st w :
  layoutChildren i (c :: cs) st w =
  match layoutChild i c st w with
  | (Ret st', w1, t1) =>
      match layoutChildren (S i) cs st' w1 with (r, w2, t2) => (r, w2, t1 ++ t2) end
  | (Raise e, w1, t1) => (Raise e, w1, t1)
  end.
Proof. reflexivity. Qed.

(** Every run of the loop is a derivation of [Layout]. *)
Lemma layoutChildren_Layout cs : ∀ i prev a w,
  i = 0 ∨ is_Some prev →
  Layout cs w (raised (layoutChildren i cs (prev, a) w).1.1)
    (layoutChildren i cs (prev, a) w).1.2 (layoutChildren i cs (prev, a) w).2.
Proof.
  induction cs as [|c cs IH]; intros i prev a w Hprev.
  - simpl. constructor.
  - rewrite layoutChildren_cons.
    pose proof (layoutChild_cases i c prev a w Hprev) as Hc.
    destruct (childUIs w !! entryName c) as [ui|] eqn:Hui.
    + destruct (decide (sameClass ui c)) as [Hs|Hs].
      * destruct Hc as [a' ->].
        specialize (IH (S i) (Some ui) a' w (or_intror (mk_is_Some _ _ eq_refl))).
        destruct (layoutChildren (S i) cs (Some ui, a') w) as [[r w2] t2].
        simpl in *. by eapply Layout_reuse.
      * destruct (decide (entryName c ∈ names (hostClasses w))) as [Hh|Hh].
        -- destruct Hc as [a' ->].
           match goal with |- context [layoutChildren _ _ (Some ?u, _) ?w1] =>
             specialize (IH (S i) (Some u) a' w1 (or_intror (mk_is_Some _ _ eq_refl)));
             destruct (layoutChildren (S i) cs (Some u, a') w1) as [[r w2] t2] end.
           simpl in *. by eapply Layout_rebuild.
        -- rewrite Hc. simpl. by apply Layout_rebuild_fail.
    + destruct (decide (entryName c ∈ names (hostClasses w))) as [Hh|Hh].
      * destruct Hc as [a' ->].
        match goal with |- context [layoutChildren _ _ (Some ?u, _) ?w1] =>
          specialize (IH (S i) (Some u) a' w1 (or_intror (mk_is_Some _ _ eq_refl)));
          destruct (layoutChildren (S i) cs (Some u, a') w1) as [[r w2] t2] end.
        simpl in *. by eapply Layout_create.
      * rewrite Hc. simpl. by apply Layout_create_fail.
Qed.

(** ** [__updateChildUIs] as a whole *)

(** A run is the deletions of the first loop, a [Layout] derivation from the
    pruned world and, when it completes, one [formLayout] edit. *)
Lemma update_Layout classes scratch w :
  let cs := effective classes w in
  let r := (__updateChildUIs classes scratch w).1.1 in
  ∃ tr2 tl,
    Layout cs (pruned cs scratch w) (raised r)
      (__updateChildUIs classes scratch w).1.2 tr2 ∧
    (__updateChildUIs classes scratch w).2 =
      deletions (list_to_set (names cs)) scratch (map_to_list (childUIs w)) ++ tr2 ++ tl ∧
    match r with
    | Ret _ => ∃ a, tl = [EvFormLayout a]
    | Raise _ => tl = []
    end.
Proof.
  intros cs r. subst r.
  assert (__updateChildUIs classes scratch w =
    match layoutChildren 0 cs
            (None, mkAttachments
               [(AddButton, Left, (20 + labelIndent (hierarchyDepth w + 1))%Z);
                (AddButton, Bottom, 5%Z)] [] [])
            (pruned cs scratch w) with
    | (Ret (prev, a), w2, t2) =>
        (Ret tt, w2,
         deletions (list_to_set (names cs)) scratch (map_to_list (childUIs w))
         ++ t2 ++ [EvFormLayout
            match prev with
            | Some p => mkAttachments (attachForm a)
                 (attachControl a ++ [(AddButton, Top, 5%Z, ChildControl (topLevelUI p))])
                 (attachNone a)
            | None => mkAttachments (attachForm a ++ [(AddButton, Top, 5%Z)])
                 (attachControl a) (attachNone a)
            end])
    | (Raise e, w2, t2) =>
        (Raise e, w2,
         deletions (list_to_set (names cs)) scratch (map_to_list (childUIs w)) ++ t2)
    end) as ->.
  { unfold __updateChildUIs, cs, effective.
    destruct classes as [cs0|]; mrun; simpl;
      rewrite deletePhase_run; simpl; unfold pruned;
      match goal with |- context [layoutChildren 0 ?l ?s ?w1] =>
        destruct (layoutChildren 0 l s w1) as [[[[p a]|e] w2] t2] end;
      simpl; try destruct p; by rewrite ?app_nil_r. }
  match goal with |- context [layoutChildren 0 ?l (?p, ?a) ?w1] =>
    pose proof (layoutChildren_Layout l 0 p a w1 (or_introl eq_refl)) as HL;
    destruct (layoutChildren 0 l (p, a) w1) as [[[[p' a']|e] w2] t2] end;
    simpl in *.
  - exists t2. eexists. split; [done|]. split; [done|]. eauto.
  - exists t2, []. by rewrite app_nil_r.
Qed.

(** ** What a [Layout] derivation guarantees *)

Lemma Layout_host cs w res w' tr :
  Layout cs w res w' tr →
  hostClasses w' = hostClasses w ∧ parameterPlugs w' = parameterPlugs w ∧
  hierarchyDepth w' = hierarchyDepth w ∧ nextUI w ≤ nextUI w'.
Proof.
  induction 1; simpl in *; try done;
    repeat match goal with H : _ ∧ _ |- _ => destruct H end;
    repeat split; try done; lia.
Qed.

Lemma Layout_total cs w res w' tr :
  Layout cs w res w' tr →
  (∀ n, n ∈ names cs → n ∈ names (hostClasses w)) →
  res = None.
Proof.
  induction 1; intros Hheld; try done.
  - apply IHLayout. intros n Hn. apply Hheld. set_solver.
  - apply IHLayout. intros n Hn. simpl. apply Hheld. set_solver.
  - exfalso. apply H1, Hheld. set_solver.
  - apply IHLayout. intros n Hn. simpl. apply Hheld. set_solver.
  - exfalso. apply H0, Hheld. set_solver.
Qed.

Lemma Layout_dom cs w res w' tr :
  Layout cs w res w' tr → res = None →
  dom (childUIs w') = dom (childUIs w) ∪ list_to_set (names cs).
Proof.
  induction 1; intros Hres; try done.
  - set_solver.
  - rewrite IHLayout by done. apply (elem_of_dom_2 (D := gset string)) in H.
    set_solver.
  - rewrite IHLayout by done. simpl. rewrite dom_insert_L.
    apply (elem_of_dom_2 (D := gset string)) in H. set_solver.
  - rewrite IHLayout by done. simpl. rewrite dom_insert_L. set_solver.
Qed.

Lemma Layout_events cs w res w' tr :
  Layout cs w res w' tr →
  Forall (λ e, isDeleteUI e ∨ isCreateChildUI e) tr.
Proof.
  unfold isDeleteUI, isCreateChildUI.
  induction 1; repeat (apply Forall_cons; split; [by eauto|]);
    eauto using Forall_nil.
Qed.

Lemma Layout_frame cs w res w' tr n :
  Layout cs w res w' tr → n ∉ names cs →
  childUIs w' !! n = childUIs w !! n.
Proof.
  induction 1; intros Hn; try done.
  - apply IHLayout. set_solver.
  - rewrite IHLayout by set_solver. simpl. apply lookup_insert_ne. set_solver.
  - rewrite IHLayout by set_solver. simpl. apply lookup_insert_ne. set_solver.
Qed.

Lemma Layout_noop cs w res w' tr :
  Layout cs w res w' tr → agrees (childUIs w) cs →
  res = None ∧ w' = w ∧ tr = [].
Proof.
  induction 1; intros Hag; try done.
  - apply IHLayout. intros c' Hc'. apply Hag. set_solver.
  - destruct (Hag c) as (ui' & Hui' & Hs); [set_solver|]. congruence.
  - destruct (Hag c) as (ui' & Hui' & Hs); [set_solver|]. congruence.
  - destruct (Hag c) as (ui' & Hui' & Hs); [set_solver|]. congruence.
  - destruct (Hag c) as (ui' & Hui' & Hs); [set_solver|]. congruence.
Qed.

Lemma Layout_agrees cs w res w' tr :
  Layout cs w res w' tr → res = None → NoDup (names cs) →
  agrees (childUIs w') cs.
Proof.
  induction 1; intros Hres Hnd c' Hc'; try done.
  - set_solver.
  - apply NoDup_cons in Hnd as [Hn Hnd].
    apply elem_of_cons in Hc' as [->|Hc']; [|by apply IHLayout].
    exists ui. split; [|done].
    by rewrite (Layout_frame _ _ _ _ _ _ H1 Hn).
  - apply NoDup_cons in Hnd as [Hn Hnd].
    apply elem_of_cons in Hc' as [->|Hc']; [|by apply IHLayout].
    eexists. rewrite (Layout_frame _ _ _ _ _ _ H2 Hn). simpl.
    rewrite lookup_insert_eq. done.
  - apply NoDup_cons in Hnd as [Hn Hnd].
    apply elem_of_cons in Hc' as [->|Hc']; [|by apply IHLayout].
    eexists. rewrite (Layout_frame _ _ _ _ _ _ H1 Hn). simpl.
    rewrite lookup_insert_eq. done.
Qed.

Lemma doomed_false S k : k ∈ S → doomed S false k = false.
Proof.
  intros Hk. unfold doomed. rewrite bool_decide_eq_false_2; [done|]. by intros ?.
Qed.

Lemma doomed_true S scratch k :
  doomed S scratch k = true ↔ k ∉ S ∨ scratch = true.
Proof.
  unfold doomed. rewrite orb_true_iff, bool_decide_eq_true. done.
Qed.

Lemma survivors_dom S scratch (m : gmap string ChildUI) :
  dom (survivors S scratch m) ⊆ S.
Proof.
  intros k Hk. apply elem_of_dom in Hk as [ui Hk].
  rewrite survivors_lookup in Hk.
  destruct (doomed S scratch k) eqn:Hd; [done|].
  destruct (decide (k ∈ S)); [done|].
  assert (doomed S scratch k = true) by (apply doomed_true; by left). congruence.
Qed.

Lemma survivors_id S (m : gmap string ChildUI) :
  dom m ⊆ S → survivors S false m = m.
Proof.
  intros Hsub. apply map_eq. intros k. rewrite survivors_lookup.
  destruct (m !! k) as [ui|] eqn:Hk; [|by destruct (doomed _ _ _)].
  rewrite doomed_false; [done|]. apply Hsub. by apply elem_of_dom.
Qed.

Lemma deletions_nil S (m : gmap string ChildUI) :
  dom m ⊆ S → deletions S false (map_to_list m) = [].
Proof.
  intros Hsub. destruct (deletions S false (map_to_list m)) as [|e l] eqn:He; [done|].
  assert (e ∈ deletions S false (map_to_list m)) as Hin by (rewrite He; left).
  apply elem_of_deletions in Hin as (k & ui & Hk & Hd & _).
  rewrite doomed_false in Hd; [done|]. apply Hsub. by apply elem_of_dom.
Qed.

Lemma pruned_host cs scratch w :
  hostClasses (pruned cs scratch w) = hostClasses w ∧
  parameterPlugs (pruned cs scratch w) = parameterPlugs w ∧
  hierarchyDepth (pruned cs scratch w) = hierarchyDepth w ∧
  nextUI (pruned cs scratch w) = nextUI w.
Proof. done. Qed.

(** [__updateChildUIs] leaves what the host stores alone and only ever takes
    new ui names. *)
Lemma update_host classes scratch w r w' tr :
  __updateChildUIs classes scratch w = (r, w', tr) →
  hostClasses w' = hostClasses w ∧ parameterPlugs w' = parameterPlugs w ∧
  hierarchyDepth w' = hierarchyDepth w ∧ nextUI w ≤ nextUI w'.
Proof.
  intros Hrun. destruct (update_Layout classes scratch w) as (tr2 & tl & HL & _).
  rewrite Hrun in HL. simpl in HL. by apply Layout_host in HL.
Qed.

(** Its trace holds deletions, constructions and, last, the layout edit:
    never a commit. *)
Lemma update_events classes scratch w r w' tr :
  __updateChildUIs classes scratch w = (r, w', tr) →
  Forall (λ e, ¬ isSetClasses e) tr.
Proof.
  intros Hrun.
  destruct (update_Layout classes scratch w) as (tr2 & tl & HL & Htr & Htl).
  rewrite Hrun in HL, Htr, Htl. simpl in *. subst tr.
  apply Layout_events in HL.
  rewrite !Forall_app. repeat split.
  - apply Forall_forall. intros e He.
    apply elem_of_deletions in He as (k & ui & _ & _ & ->). by intros [? ?].
  - eapply Forall_impl; [exact HL|]. intros e [[? ->]|(? & ? & ->)] [? ?]; done.
  - destruct r; [destruct Htl as [a' ->]|subst tl]; repeat constructor.
    by intros [? ?].
Qed.

(** It completes whenever the host holds every name of the list, as it does
    for every list the widget computes from [getClasses]. *)
Lemma update_completes classes scratch w :
  names (effective classes w) ⊆ names (hostClasses w) →
  ∃ w' tr, __updateChildUIs classes scratch w = (Ret tt, w', tr).
Proof.
  intros Hsub.
  destruct (update_Layout classes scratch w) as (tr2 & tl & HL & _).
  destruct (__updateChildUIs classes scratch w) as [[[[]|e] w'] tr] eqn:Hrun;
    simpl in *; [by eauto|].
  apply Layout_total in HL; [done|]. intros n Hn. by apply Hsub.
Qed.

(** The keys of the registry after a completed run. *)
Lemma update_keys classes scratch w w' tr :
  __updateChildUIs classes scratch w = (Ret tt, w', tr) →
  dom (childUIs w') = list_to_set (names (effective classes w)).
Proof.
  intros Hrun.
  destruct (update_Layout classes scratch w) as (tr2 & tl & HL & _).
  rewrite Hrun in HL. simpl in HL.
  apply Layout_dom in HL; [|done]. rewrite HL.
  pose proof (survivors_dom (list_to_set (names (effective classes w)))
                scratch (childUIs w)) as Hs.
  unfold pruned. simpl. set_solver.
Qed.

(** ** C2: the registry after reconciliation *)

(** C2. After every completed run of [__updateChildUIs] over a class-entry
    list, the keys of [__childUIs] are exactly the parameter names of that
    list: each name of the list has a ui, and no ui is registered under any
    other name. *)
Theorem updateChildUIs_keys classes startFromScratch w w' tr :
  __updateChildUIs classes startFromScratch w = (Ret tt, w', tr) →
  dom (childUIs w') = list_to_set (names (effective classes w)).
Proof. apply update_keys. Qed.

(** ** C5: reconciliation is idempotent *)

(** C5. When [__updateChildUIs] has run over a class-entry list with distinct
    parameter names, running it again over the unchanged list with
    [startFromScratch] false completes, deletes (and builds) no child ui, and
    leaves the registry, indeed the whole world, as it was: its only host
    call is the layout edit. *)
Theorem updateChildUIs_idempotent classes startFromScratch w w1 tr1 :
  __updateChildUIs classes startFromScratch w = (Ret tt, w1, tr1) →
  NoDup (names (effective classes w)) →
  ∃ a, __updateChildUIs classes false w1 = (Ret tt, w1, [EvFormLayout a]).
Proof.
  intros Hrun Hnd.
  pose proof (update_keys _ _ _ _ _ Hrun) as Hdom.
  pose proof (update_host _ _ _ _ _ _ Hrun) as (Hhost & _).
  destruct (update_Layout classes startFromScratch w) as (tr2 & tl & HL & _).
  rewrite Hrun in HL. simpl in HL.
  apply Layout_agrees in HL; [|done..].
  assert (effective classes w1 = effective classes w) as Heff.
  { unfold effective. destruct classes; simpl; congruence. }
  destruct (update_Layout classes false w1) as (tr2' & tl' & HL' & Htr' & Htl').
  rewrite Heff in HL', Htr'.
  assert (pruned (effective classes w) false w1 = w1) as Hpr.
  { unfold pruned. rewrite survivors_id by (by rewrite Hdom).
    apply set_childUIs_id. }
  rewrite Hpr in HL'. rewrite deletions_nil in Htr' by (by rewrite Hdom).
  apply Layout_noop in HL' as (Hres & Hw & ->); [|done].
  destruct (__updateChildUIs classes false w1) as [[[[]|e] w2] tr2''];
    simpl in *; [|done].
  destruct Htl' as [a ->]. exists a. by subst.
Qed.

(** ** [_removeClass] and [_setClass] *)

Lemma names_classesWithout pn cs :
  names (classesWithout pn cs) ⊆ names cs.
Proof.
  intros n Hn. apply list_elem_of_fmap in Hn as (c & -> & Hc).
  apply list_elem_of_filter in Hc as [_ Hc].
  apply list_elem_of_fmap. by exists c.
Qed.

Lemma elem_of_names_classesWithout pn cs n :
  n ∈ names (classesWithout pn cs) ↔ n ∈ names cs ∧ Some n ≠ pn.
Proof.
  unfold names, classesWithout. rewrite !list_elem_of_fmap. split.
  - intros (c & -> & Hc). apply list_elem_of_filter in Hc as [Hne Hc].
    split; [by exists c|done].
  - intros [(c & -> & Hc) Hne]. exists c. split; [done|].
    by apply list_elem_of_filter.
Qed.

Lemma classesWithout_absent pn cs :
  (∀ n, pn = Some n → n ∉ names cs) → classesWithout pn cs = cs.
Proof.
  intros Hpn. unfold classesWithout.
  induction cs as [|c cs IH]; [done|].
  rewrite filter_cons_True.
  - f_equal. apply IH. intros n Hn. specialize (Hpn n Hn). set_solver.
  - intros <-. apply (Hpn (entryName c)); [done|]. set_solver.
Qed.

(** The pre-update of both mutations completes: its list is drawn from what
    the host holds. *)
Lemma preUpdate_completes pn w :
  ∃ w1 tr1,
    __updateChildUIs (Some (classesWithout pn (hostClasses w))) false w
    = (Ret tt, w1, tr1).
Proof. apply update_completes. simpl. apply names_classesWithout. Qed.

Lemma removeClass_run pn w w1 tr1 :
  let cs := classesWithout pn (hostClasses w) in
  __updateChildUIs (Some cs) false w = (Ret tt, w1, tr1) →
  _removeClass pn w = (Ret tt, set_hostClasses cs w1, tr1 ++ [EvSetClasses cs]).
Proof.
  intros cs Hrun. unfold _removeClass. mrun. fold cs. by rewrite Hrun.
Qed.

(** The class list [_setClass] commits, computed from the list it reads back
    after the pre-update; [None] where it raises. *)
Lemma setClass_run pn cn cv w w1 tr1 :
  __updateChildUIs (Some (classesWithout pn (hostClasses w))) false w
    = (Ret tt, w1, tr1) →
  _setClass pn cn cv w =
  if truthy pn then
    match findParameter (default EmptyString pn) (hostClasses w) with
    | None => (Raise (RuntimeError (notPresent (default EmptyString pn))), w1, tr1)
    | Some i =>
        let cs := <[i := mkEntry (default EmptyString pn) cn cv]> (hostClasses w) in
        (Ret tt, set_hostClasses cs w1, tr1 ++ [EvSetClasses cs])
    end
  else
    let cs := hostClasses w ++
      [mkEntry (newParameterName (list_to_set (names (hostClasses w)))
                  (seq 0 (length (hostClasses w) + 1)) (default EmptyString pn)) cn cv] in
    (Ret tt, set_hostClasses cs w1, tr1 ++ [EvSetClasses cs]).
Proof.
  intros Hrun. pose proof (update_host _ _ _ _ _ _ Hrun) as (Hhost & _).
  unfold _setClass. mrun. rewrite Hrun, Hhost.
  destruct (truthy pn); [destruct (findParameter _ _)|];
    simpl; by rewrite ?app_nil_r.
Qed.

(** ** C1: the update pass comes before the commit *)

(** C1. In [_removeClass] and in [_setClass] the whole run of
    [__updateChildUIs] (its deletions, its constructions and its layout edit)
    comes first and holds no commit; the call of
    [fnPH.setClassVectorParameterClasses] is the one event after it, or does
    not happen at all when [_setClass] raises. *)
Theorem update_precedes_commit :
  (∀ pn w, ∃ cs w1 tr1,
     __updateChildUIs (Some cs) false w = (Ret tt, w1, tr1) ∧
     Forall (λ e, ¬ isSetClasses e) tr1 ∧
     _removeClass pn w = (Ret tt, set_hostClasses cs w1, tr1 ++ [EvSetClasses cs])) ∧
  (∀ pn cn cv w, ∃ cs0 w1 tr1,
     __updateChildUIs (Some cs0) false w = (Ret tt, w1, tr1) ∧
     Forall (λ e, ¬ isSetClasses e) tr1 ∧
     ((∃ cs, _setClass pn cn cv w
             = (Ret tt, set_hostClasses cs w1, tr1 ++ [EvSetClasses cs])) ∨
      (∃ e, _setClass pn cn cv w = (Raise e, w1, tr1)))).
Proof.
  split.
  - intros pn w. destruct (preUpdate_completes pn w) as (w1 & tr1 & Hrun).
    exists (classesWithout pn (hostClasses w)), w1, tr1.
    split; [done|]. split; [by eapply update_events|].
    by apply removeClass_run.
  - intros pn cn cv w. destruct (preUpdate_completes pn w) as (w1 & tr1 & Hrun).
    exists (classesWithout pn (hostClasses w)), w1, tr1.
    split; [done|]. split; [by eapply update_events|].
    rewrite (setClass_run _ _ _ _ _ _ Hrun).
    destruct (truthy pn); [|by eauto].
    destruct (findParameter _ _); by eauto.
Qed.

(** ** C10: [_setClass] on a name the host does not hold *)

Lemma findParameter_None n cs :
  n ∉ names cs → findParameter n cs = None.
Proof.
  intros Hn. unfold findParameter.
  destruct (list_find _ cs) as [[i c]|] eqn:Hf; [|done].
  apply list_find_Some in Hf as (Hi & <- & _).
  exfalso. apply Hn. apply list_elem_of_fmap. exists c. split; [done|].
  by eapply list_elem_of_lookup_2.
Qed.

(** C10. Called with a non-empty [parameterName] that the current class list
    does not hold, [_setClass] raises [RuntimeError] and commits nothing;
    the pre-update has run all the same and is not undone: the world is the
    one [__updateChildUIs] left, no ui is registered under that name any
    more, and the one that was has been deleted. *)
Theorem setClass_not_present parameterName cn cv w :
  parameterName ≠ EmptyString →
  parameterName ∉ names (hostClasses w) →
  ∃ w' tr,
    _setClass (Some parameterName) cn cv w
      = (Raise (RuntimeError (notPresent parameterName)), w', tr) ∧
    Forall (λ e, ¬ isSetClasses e) tr ∧
    hostClasses w' = hostClasses w ∧
    __updateChildUIs (Some (hostClasses w)) false w = (Ret tt, w', tr) ∧
    childUIs w' !! parameterName = None ∧
    (∀ ui, childUIs w !! parameterName = Some ui → EvDeleteUI (topLevelUI ui) ∈ tr).
Proof.
  intros Hne Habs.
  destruct (preUpdate_completes (Some parameterName) w) as (w' & tr & Hrun).
  exists w', tr.
  rewrite (setClass_run _ _ _ _ _ _ Hrun). simpl.
  rewrite bool_decide_eq_true_2 by done.
  rewrite findParameter_None by done.
  rewrite classesWithout_absent in Hrun by (by intros n [= ->]).
  split; [done|]. split; [by eapply update_events|].
  split; [by eapply update_host|]. split; [done|]. split.
  - apply (not_elem_of_dom (D := gset string)).
    rewrite (update_keys _ _ _ _ _ Hrun). simpl. set_solver.
  - intros ui Hui.
    destruct (update_Layout (Some (hostClasses w)) false w) as (tr2 & tl & _ & Htr & _).
    rewrite Hrun in Htr. simpl in Htr. subst tr.
    apply elem_of_app. left. apply elem_of_deletions.
    exists parameterName, ui. split; [done|]. split; [|done].
    apply doomed_true. left. set_solver.
Qed.

(** ** C7: the name of a new entry *)

Lemma pName_inj : Inj (=) (=) pName.
Proof.
  intros i j H. unfold pName in H. simpl in H.
  injection H as H. by apply (inj pretty).
Qed.

(** Among [p0 .. pn] one name is free in any list of [n] names. *)
Lemma pName_free (l : list string) :
  ∃ j, j ≤ length l ∧ pName j ∉ l.
Proof.
  destruct (decide (Forall (λ j, pName j ∈ l) (seq 0 (S (length l))))) as [Hall|Hex].
  - exfalso.
    assert (pName <$> seq 0 (S (length l)) ⊆+ l) as Hsub.
    { apply NoDup_submseteq.
      - apply (NoDup_fmap_2 _), NoDup_seq.
      - intros n Hn. apply list_elem_of_fmap in Hn as (j & -> & Hj).
        rewrite Forall_forall in Hall. by apply Hall. }
    apply submseteq_length in Hsub. rewrite length_fmap, length_seq in Hsub. lia.
  - apply not_Forall_Exists in Hex; [|apply _].
    apply Exists_exists in Hex as (j & Hj & Hfree).
    apply elem_of_seq in Hj. exists j. split; [lia|done].
Qed.

(** The naming loop stops at the first free index of its range, if there is
    one. *)
Lemma newParameterName_least (S : gset string) n : ∀ k d,
  (∃ j, k ≤ j < k + n ∧ pName j ∉ S) →
  ∃ i, k ≤ i < k + n ∧ newParameterName S (seq k n) d = pName i ∧
       (pName i ∉ S) ∧ (∀ j, k ≤ j < i → pName j ∈ S).
Proof.
  induction n as [|n IH]; intros k d (j & Hj & Hfree); [lia|].
  simpl. destruct (decide (pName k ∈ S)) as [Hk|Hk].
  - rewrite bool_decide_eq_false_2 by (by intros ?).
    destruct (IH (Datatypes.S k) (pName k)) as (i & Hi & Heq & Hi' & Hlt).
    { exists j. split; [|done]. destruct (decide (j = k)) as [->|]; [done|lia]. }
    exists i. split; [lia|]. split; [done|]. split; [done|].
    intros j' Hj'. destruct (decide (j' = k)) as [->|]; [done|].
    apply Hlt. lia.
  - rewrite bool_decide_eq_true_2 by done.
    exists k. split; [lia|]. split; [done|]. split; [done|]. intros; lia.
Qed.

Lemma newParameterName_fresh (cs : list ClassEntry) d :
  ∃ i, i ≤ length cs ∧
    newParameterName (list_to_set (names cs)) (seq 0 (length cs + 1)) d = pName i ∧
    (pName i ∉ names cs) ∧ (∀ j, j < i → pName j ∈ names cs).
Proof.
  destruct (pName_free (names cs)) as (j & Hj & Hfree).
  unfold names in Hj. rewrite length_fmap in Hj.
  destruct (newParameterName_least (list_to_set (names cs)) (length cs + 1) 0 d)
    as (i & Hi & Heq & Hi' & Hlt).
  { exists j. split; [lia|]. by rewrite elem_of_list_to_set. }
  exists i. split; [lia|]. split; [done|].
  rewrite elem_of_list_to_set in Hi'. split; [done|].
  intros j' Hj'. specialize (Hlt j'). rewrite elem_of_list_to_set in Hlt.
  apply Hlt. lia.
Qed.

(** What [_setClass] does without a parameter name. *)
Lemma setClass_add cn cv w :
  ∃ i w1 tr1,
    __updateChildUIs (Some (hostClasses w)) false w = (Ret tt, w1, tr1) ∧
    _setClass None cn cv w =
      (Ret tt, set_hostClasses (hostClasses w ++ [mkEntry (pName i) cn cv]) w1,
       tr1 ++ [EvSetClasses (hostClasses w ++ [mkEntry (pName i) cn cv])]) ∧
    i ≤ length (hostClasses w) ∧
    (pName i ∉ names (hostClasses w)) ∧
    (∀ j, j < i → pName j ∈ names (hostClasses w)).
Proof.
  destruct (preUpdate_completes None w) as (w1 & tr1 & Hrun).
  destruct (newParameterName_fresh (hostClasses w) EmptyString)
    as (i & Hi & Heq & Hfree & Hlt).
  exists i, w1, tr1.
  rewrite (setClass_run _ _ _ _ _ _ Hrun). simpl. rewrite Heq.
  rewrite classesWithout_absent in Hrun by done. done.
Qed.

Lemma callback_resync w :
  ∃ w' tr,
    _classesSetCallback w = (Ret tt, w', tr) ∧
    hostClasses w' = hostClasses w ∧
    dom (childUIs w') = list_to_set (names (hostClasses w)).
Proof.
  destruct (update_completes None false w) as (w' & tr & Hrun); [done|].
  exists w', tr. split; [done|]. split; [by eapply update_host|].
  by rewrite (update_keys _ _ _ _ _ Hrun).
Qed.

Lemma addClass_run cn cv w :
  ∃ i w' tr,
    addClass cn cv w = (Ret tt, w', tr) ∧
    hostClasses w' = hostClasses w ++ [mkEntry (pName i) cn cv] ∧
    (pName i ∉ names (hostClasses w)) ∧
    dom (childUIs w') = list_to_set (names (hostClasses w')).
Proof.
  destruct (setClass_add cn cv w) as (i & w1 & tr1 & _ & Hset & _ & Hfree & _).
  match type of Hset with _ = (_, ?w2, _) =>
    destruct (callback_resync w2) as (w' & tr & Hcb & Hhost & Hdom) end.
  exists i, w', (tr1 ++ [EvSetClasses (hostClasses w ++ [mkEntry (pName i) cn cv])] ++ tr).
  unfold addClass, thenCallback. rewrite bind_run, Hset, Hcb.
  split; [by rewrite <- app_assoc|]. split; [done|]. split; [done|].
  by rewrite Hdom, Hhost.
Qed.

Lemma addClasses_run l : ∀ w,
  NoDup (names (hostClasses w)) →
  ∃ w' tr,
    addClasses l w = (Ret tt, w', tr) ∧
    length (hostClasses w') = length (hostClasses w) + length l ∧
    NoDup (names (hostClasses w')) ∧
    (l ≠ [] → dom (childUIs w') = list_to_set (names (hostClasses w'))).
Proof.
  induction l as [|[cn cv] l IH]; intros w Hnd.
  - exists w, []. split; [done|]. split; [simpl; lia|]. done.
  - destruct (addClass_run cn cv w) as (i & w1 & tr1 & Hadd & Hhost & Hfree & Hdom).
    destruct (IH w1) as (w' & tr & Hrun & Hlen & Hnd' & Hdom').
    { rewrite Hhost. unfold names. rewrite fmap_app. apply NoDup_app.
      split; [done|]. split; [|apply NoDup_singleton].
      intros n Hn Hn'. apply list_elem_of_singleton in Hn'. by subst. }
    exists w', (tr1 ++ tr). unfold addClasses in *. simpl.
    rewrite bind_run, Hadd, Hrun. split; [done|].
    split; [rewrite Hlen, Hhost, length_app; simpl; lia|]. split; [done|].
    intros _. destruct l as [|cl l]; [|by apply Hdom'].
    simpl in Hrun. by injection Hrun as <- _.
Qed.

(** C7. Without a parameter name [_setClass] names the new entry ["p%d" % i]
    for the least [i] in [0 .. len( classes )] whose name is not taken, a name
    no entry has yet, and appends the entry at the end of the list it commits;
    so after [N] additions to an empty class vector, each followed by the
    host's callback, the registry holds [N] uis under [N] distinct names. *)
Theorem setClass_new_parameter :
  (∀ cn cv w, ∃ i w' tr,
     _setClass None cn cv w = (Ret tt, w', tr) ∧
     hostClasses w' = hostClasses w ++ [mkEntry (pName i) cn cv] ∧
     last tr = Some (EvSetClasses (hostClasses w')) ∧
     i ≤ length (hostClasses w) ∧
     (pName i ∉ names (hostClasses w)) ∧
     (∀ j, j < i → pName j ∈ names (hostClasses w))) ∧
  (∀ l plugs next depth, ∃ w' tr,
     addClasses l (mkWorld [] plugs ∅ next depth) = (Ret tt, w', tr) ∧
     length (hostClasses w') = length l ∧
     NoDup (names (hostClasses w')) ∧
     dom (childUIs w') = list_to_set (names (hostClasses w')) ∧
     size (childUIs w') = length l).
Proof.
  split.
  - intros cn cv w.
    destruct (setClass_add cn cv w) as (i & w1 & tr1 & _ & Hset & Hi & Hfree & Hlt).
    eexists i, _, _. split; [exact Hset|]. split; [done|].
    split; [by rewrite last_snoc|]. done.
  - intros l plugs next depth.
    destruct (addClasses_run l (mkWorld [] plugs ∅ next depth))
      as (w' & tr & Hrun & Hlen & Hnd & Hdom); [constructor|].
    exists w', tr. split; [done|]. split; [done|]. split; [done|].
    assert (dom (childUIs w') = list_to_set (names (hostClasses w'))) as Hd.
    { destruct l as [|cl l]; [|by apply Hdom].
      simpl in Hrun. by injection Hrun as <- _. }
    split; [done|].
    rewrite <- size_dom, Hd, size_list_to_set by done.
    unfold names. by rewrite length_fmap.
Qed.

(** ** C4: what the pre-update leaves in the registry *)

Lemma findParameter_Some n cs i :
  findParameter n cs = Some i →
  ∃ c, cs !! i = Some c ∧ entryName c = n.
Proof.
  unfold findParameter. destruct (list_find _ cs) as [[j c]|] eqn:Hf; [|done].
  intros [= <-]. apply list_find_Some in Hf as (Hj & Hn & _). by exists c.
Qed.

Lemma names_replace cs i c n cn cv :
  cs !! i = Some c → entryName c = n →
  names (<[i := mkEntry n cn cv]> cs) = names cs.
Proof.
  intros Hi <-. unfold names. rewrite list_fmap_insert. simpl.
  apply list_insert_id. by rewrite list_lookup_fmap, Hi.
Qed.

(** C4, as the code has it.  A removal leaves the registry matching the list
    it commits.  An addition or a replacement leaves it matching the
    committed list without the added or replaced entry, whose ui does not
    exist when the commit is made; the reconciliation run by the host's
    callback then brings the registry to the names of the committed list. *)
Theorem preUpdate_registry :
  (∀ pn w, ∃ w' tr,
     _removeClass pn w = (Ret tt, w', tr) ∧
     dom (childUIs w') = list_to_set (names (hostClasses w'))) ∧
  (∀ cn cv w, ∃ c w' tr,
     _setClass None cn cv w = (Ret tt, w', tr) ∧
     hostClasses w' = hostClasses w ++ [c] ∧
     entryClass c = cn ∧ entryVersion c = cv ∧
     dom (childUIs w') = list_to_set (names (hostClasses w')) ∖ {[entryName c]}) ∧
  (∀ pn cn cv w w' tr,
     pn ≠ EmptyString →
     _setClass (Some pn) cn cv w = (Ret tt, w', tr) →
     (∃ i, i < length (hostClasses w) ∧
           hostClasses w' = <[i := mkEntry pn cn cv]> (hostClasses w)) ∧
     pn ∈ names (hostClasses w') ∧
     dom (childUIs w') = list_to_set (names (hostClasses w')) ∖ {[pn]}) ∧
  (∀ w, ∃ w' tr,
     _classesSetCallback w = (Ret tt, w', tr) ∧
     hostClasses w' = hostClasses w ∧
     dom (childUIs w') = list_to_set (names (hostClasses w))).
Proof.
  split; [|split; [|split]].
  - intros pn w. destruct (preUpdate_completes pn w) as (w1 & tr1 & Hrun).
    eexists _, _. split; [by apply removeClass_run|]. simpl.
    by rewrite (update_keys _ _ _ _ _ Hrun).
  - intros cn cv w.
    destruct (setClass_add cn cv w) as (i & w1 & tr1 & Hrun & Hset & _ & Hfree & _).
    eexists (mkEntry (pName i) cn cv), _, _. split; [exact Hset|]. simpl.
    split; [done|]. split; [done|]. split; [done|].
    rewrite (update_keys _ _ _ _ _ Hrun). simpl.
    apply set_eq. intros n.
    rewrite elem_of_difference, !elem_of_list_to_set, elem_of_singleton.
    unfold names in *. rewrite fmap_app, elem_of_app. simpl.
    rewrite list_elem_of_singleton. split; [|tauto].
    intros Hn. split; [by left|]. by intros ->.
  - intros pn cn cv w w' tr Hne Hset.
    destruct (preUpdate_completes (Some pn) w) as (w1 & tr1 & Hrun).
    rewrite (setClass_run _ _ _ _ _ _ Hrun) in Hset. simpl in Hset.
    rewrite bool_decide_eq_true_2 in Hset by done.
    destruct (findParameter pn (hostClasses w)) as [i|] eqn:Hf; [|done].
    injection Hset as <- _.
    destruct (findParameter_Some _ _ _ Hf) as (c & Hi & Hc).
    simpl. rewrite (names_replace _ _ _ _ _ _ Hi Hc).
    split; [exists i; split; [by eapply lookup_lt_Some|done]|].
    split.
    { apply list_elem_of_fmap. exists c. split; [done|].
      by eapply list_elem_of_lookup_2. }
    rewrite (update_keys _ _ _ _ _ Hrun). simpl.
    apply set_eq. intros n. rewrite elem_of_difference, !elem_of_list_to_set.
    rewrite elem_of_names_classesWithout, elem_of_singleton.
    split; intros [? ?]; (split; [done|congruence]).
  - apply callback_resync.
Qed.

(** ** C3: reuse or rebuild *)

Lemma built_wf c w : wfUIs w → wfUIs (built c w).
Proof.
  intros [Hlt Hinj]. split; simpl.
  - intros k ui Hk. apply lookup_insert_Some in Hk as [[_ <-]|[_ Hk]]; simpl.
    + lia.
    + apply Hlt in Hk. lia.
  - intros k1 k2 ui1 ui2 H1 H2 Heq.
    apply lookup_insert_Some in H1 as [[<- <-]|[Hn1 H1]];
      apply lookup_insert_Some in H2 as [[<- <-]|[Hn2 H2]]; simpl in *.
    + done.
    + apply Hlt in H2. lia.
    + apply Hlt in H1. lia.
    + by eapply Hinj.
Qed.

Lemma Layout_wf cs w res w' tr :
  Layout cs w res w' tr → wfUIs w → wfUIs w'.
Proof. induction 1; auto using built_wf. Qed.

Lemma pruned_wf cs scratch w : wfUIs w → wfUIs (pruned cs scratch w).
Proof.
  intros [Hlt Hinj]. unfold pruned. split; simpl.
  - intros k ui Hk. rewrite survivors_lookup in Hk.
    destruct (doomed _ _ _); [done|]. by eapply Hlt.
  - intros k1 k2 ui1 ui2 H1 H2. rewrite survivors_lookup in H1, H2.
    destruct (doomed _ _ k1); [done|]. destruct (doomed _ _ k2); [done|].
    by eapply Hinj.
Qed.

(** Well-formedness is kept by reconciliation. *)
Lemma update_wf classes scratch w r w' tr :
  __updateChildUIs classes scratch w = (r, w', tr) → wfUIs w → wfUIs w'.
Proof.
  intros Hrun Hwf. destruct (update_Layout classes scratch w) as (tr2 & tl & HL & _).
  rewrite Hrun in HL. simpl in HL.
  eapply Layout_wf; [exact HL|]. by apply pruned_wf.
Qed.

(** A ui whose entries all carry its class goes through the second loop
    untouched. *)
Lemma Layout_keep cs w res w' tr n ui :
  Layout cs w res w' tr →
  childUIs w !! n = Some ui →
  topLevelUI ui < nextUI w →
  (∀ k ui', childUIs w !! k = Some ui' → topLevelUI ui' = topLevelUI ui → k = n) →
  (∀ c, c ∈ cs → entryName c = n → sameClass ui c) →
  reused n ui w' tr.
Proof.
  unfold reused.
  induction 1 as [w|c cs w ui0 res w' tr Hui0 Hs HL IH
                 |c cs w ui0 res w' tr Hui0 Hs Hh HL IH
                 |c cs w ui0 Hui0 Hs Hh
                 |c cs w res w' tr Hnone Hh HL IH
                 |c cs w Hnone Hh];
    intros Hn Hlt Hown Hsame.
  - split; [done|]. by intros ?%elem_of_nil.
  - apply IH; try done. intros c' Hc'. apply Hsame. set_solver.
  - assert (entryName c ≠ n) as Hne.
    { intros Heq. rewrite Heq, Hn in Hui0. injection Hui0 as <-.
      apply Hs, Hsame; [set_solver|done]. }
    destruct IH as [Hkeep Hnodel].
    + simpl. by rewrite lookup_insert_ne.
    + simpl. lia.
    + simpl. intros k ui' Hk Heq.
      apply lookup_insert_Some in Hk as [[_ <-]|[_ Hk]]; [simpl in Heq; lia|].
      by eapply Hown.
    + intros c' Hc'. apply Hsame. set_solver.
    + split; [done|]. intros Hin.
      apply elem_of_cons in Hin as [[= Heq]|Hin].
      { apply Hne. by eapply Hown. }
      apply elem_of_cons in Hin as [?|Hin]; [done|]. by apply Hnodel.
  - split; [done|]. intros Hin. apply list_elem_of_singleton in Hin as [= Heq].
    assert (entryName c = n) as Hcn by (by eapply Hown).
    rewrite Hcn, Hn in Hui0. injection Hui0 as <-.
    apply Hs, Hsame; [set_solver|done].
  - assert (entryName c ≠ n) as Hne by (intros Heq; congruence).
    destruct IH as [Hkeep Hnodel].
    + simpl. by rewrite lookup_insert_ne.
    + simpl. lia.
    + simpl. intros k ui' Hk Heq.
      apply lookup_insert_Some in Hk as [[_ <-]|[_ Hk]]; [simpl in Heq; lia|].
      by eapply Hown.
    + intros c' Hc'. apply Hsame. set_solver.
    + split; [done|]. intros Hin.
      apply elem_of_cons in Hin as [?|Hin]; [done|]. by apply Hnodel.
  - split; [done|]. by intros ?%elem_of_nil.
Qed.

(** After the second loop a name holds what it held or a ui built in the
    loop. *)
Lemma Layout_created cs w res w' tr n :
  Layout cs w res w' tr →
  childUIs w' !! n = childUIs w !! n ∨ rebuilt n cs (nextUI w) w' tr.
Proof.
  unfold rebuilt.
  induction 1 as [w|c cs w ui0 res w' tr Hui0 Hs HL IH
                 |c cs w ui0 res w' tr Hui0 Hs Hh HL IH
                 |c cs w ui0 Hui0 Hs Hh
                 |c cs w res w' tr Hnone Hh HL IH
                 |c cs w Hnone Hh]; try (by left).
  - destruct IH as [IH|(t & c' & ? & ? & ? & ? & ?)]; [by left|].
    right. exists t, c'. set_solver.
  - destruct IH as [IH|(t & c' & Ht & ? & ? & ? & ?)].
    + rewrite IH. simpl. destruct (decide (entryName c = n)) as [<-|Hne].
      * right. exists (nextUI w), c. rewrite lookup_insert_eq. set_solver.
      * left. by rewrite lookup_insert_ne.
    + right. exists t, c'. simpl in Ht. split; [lia|]. set_solver.
  - destruct IH as [IH|(t & c' & Ht & ? & ? & ? & ?)].
    + rewrite IH. simpl. destruct (decide (entryName c = n)) as [<-|Hne].
      * right. exists (nextUI w), c. rewrite lookup_insert_eq. set_solver.
      * left. by rewrite lookup_insert_ne.
    + right. exists t, c'. simpl in Ht. split; [lia|]. set_solver.
Qed.

(** A ui that meets an entry of another class is deleted and replaced by one
    built in the loop. *)
Lemma Layout_replace cs w w' tr n ui :
  Layout cs w None w' tr →
  childUIs w !! n = Some ui →
  (∃ c, c ∈ cs ∧ entryName c = n ∧ ¬ sameClass ui c) →
  EvDeleteUI (topLevelUI ui) ∈ tr ∧ rebuilt n cs (nextUI w) w' tr.
Proof.
  intros HL. remember None as res eqn:Hres. revert Hres.
  induction HL as [w|c cs w ui0 res w' tr Hui0 Hs HL IH
                  |c cs w ui0 res w' tr Hui0 Hs Hh HL IH
                  |c cs w ui0 Hui0 Hs Hh
                  |c cs w res w' tr Hnone Hh HL IH
                  |c cs w Hnone Hh];
    intros Hres Hn (c' & Hc' & Hcn & Hdiff); try done.
  - set_solver.
  - destruct IH as [Hdel (t & c'' & ? & ? & ? & ? & ?)]; [done..| |].
    { exists c'. split; [|done].
      apply elem_of_cons in Hc' as [->|]; [|done].
      rewrite Hcn, Hn in Hui0. by injection Hui0 as <-. }
    split; [done|]. exists t, c''. set_solver.
  - destruct (decide (entryName c = n)) as [Heq|Hne].
    + rewrite Heq, Hn in Hui0. injection Hui0 as <-.
      split; [set_solver|].
      destruct (Layout_created _ _ _ _ _ n HL) as [Hsame|(t & c'' & Ht & ? & ? & ? & ?)].
      * exists (nextUI w), c. rewrite Hsame. simpl.
        rewrite <- Heq, lookup_insert_eq. set_solver.
      * exists t, c''. simpl in Ht. split; [lia|]. set_solver.
    + destruct IH as [Hdel (t & c'' & Ht & ? & ? & ? & ?)]; [done| | |].
      { simpl. by rewrite lookup_insert_ne. }
      { exists c'. split; [|done].
        apply elem_of_cons in Hc' as [->|]; [done|done]. }
      split; [set_solver|]. exists t, c''. simpl in Ht. split; [lia|]. set_solver.
  - assert (entryName c ≠ n) as Hne by (intros Heq; congruence).
    destruct IH as [Hdel (t & c'' & Ht & ? & ? & ? & ?)]; [done| | |].
    { simpl. by rewrite lookup_insert_ne. }
    { exists c'. split; [|done].
      apply elem_of_cons in Hc' as [->|]; [done|done]. }
    split; [set_solver|]. exists t, c''. simpl in Ht. split; [lia|]. set_solver.
Qed.

(** C3. In a completed reconciliation, a ui already registered under name [n]
    is reused in place if and only if [startFromScratch] is false, [n] is
    in the new class-entry list, and the class name and class version found
    there under [n] are the ui's; in every other case the ui is deleted, and
    if [n] is still in the list a new ui is built and registered for it,
    while otherwise the name is left without a ui. *)
Theorem updateChildUIs_reuse classes startFromScratch w w' tr n ui :
  __updateChildUIs classes startFromScratch w = (Ret tt, w', tr) →
  wfUIs w →
  childUIs w !! n = Some ui →
  let cs := effective classes w in
  let unchanged :=
    startFromScratch = false ∧ n ∈ names cs ∧
    ∀ c, c ∈ cs → entryName c = n → sameClass ui c in
  (reused n ui w' tr ↔ unchanged) ∧
  (¬ unchanged →
     EvDeleteUI (topLevelUI ui) ∈ tr ∧
     (n ∈ names cs → rebuilt n cs (nextUI w) w' tr) ∧
     (n ∉ names cs → childUIs w' !! n = None)).
Proof.
  intros Hrun Hwf Hn cs unchanged.
  destruct (update_Layout classes startFromScratch w) as (tr2 & tl & HL & Htr & Htl).
  rewrite Hrun in HL, Htr, Htl. simpl in HL, Htr, Htl. destruct Htl as [a ->].
  fold cs in HL, Htr.
  set (S := list_to_set (names cs) : gset string) in *.
  assert (∀ t m, rebuilt n cs (nextUI w) w' tr2 →
                 rebuilt n cs (nextUI w) w' (t ++ tr2 ++ m)) as Hlift.
  { intros t m (u & c & ? & ? & ?). exists u, c. set_solver. }
  destruct (doomed S startFromScratch n) eqn:Hd.
  - (* deleted by the first loop *)
    assert (EvDeleteUI (topLevelUI ui) ∈ tr) as Hdel.
    { subst tr. apply elem_of_app. left. apply elem_of_deletions. by exists n, ui. }
    assert (¬ unchanged) as Hnot.
    { intros (-> & Hin & _). apply doomed_true in Hd as [Hd|?]; [|done].
      apply Hd. unfold S. by apply elem_of_list_to_set. }
    split; [split; [by intros [_ ?]|done]|].
    intros _. split; [done|].
    assert (childUIs (pruned cs startFromScratch w) !! n = None) as Hgone.
    { unfold pruned. simpl. fold S. by rewrite survivors_lookup, Hd. }
    split.
    + intros Hin. subst tr. apply Hlift.
      destruct (Layout_created _ _ _ _ _ n HL) as [Hsame|Hre]; [|done].
      exfalso. rewrite Hgone in Hsame.
      apply (not_elem_of_dom (D := gset string)) in Hsame. apply Hsame.
      rewrite (update_keys _ _ _ _ _ Hrun). by apply elem_of_list_to_set.
    + intros Hout. by rewrite (Layout_frame _ _ _ _ _ _ HL Hout).
  - (* kept by the first loop *)
    assert (startFromScratch = false ∧ n ∈ names cs) as [-> Hin].
    { destruct startFromScratch.
      - assert (doomed S true n = true) by (apply doomed_true; by right). congruence.
      - split; [done|]. destruct (decide (n ∈ names cs)) as [|Hout]; [done|].
        assert (doomed S false n = true); [|congruence].
        apply doomed_true. left. unfold S. by rewrite elem_of_list_to_set. }
    assert (childUIs (pruned cs false w) !! n = Some ui) as Hn'.
    { unfold pruned. simpl. fold S. by rewrite survivors_lookup, Hd. }
    assert (EvDeleteUI (topLevelUI ui)
              ∉ deletions S false (map_to_list (childUIs w))) as Hnd.
    { intros Hin'. apply elem_of_deletions in Hin' as (k & ui' & Hk & Hdk & [= Heq]).
      destruct Hwf as [_ Hinj]. rewrite (Hinj _ _ _ _ Hn Hk Heq) in Hd. congruence. }
    destruct (decide (Forall (λ c, entryName c = n → sameClass ui c) cs))
      as [Hall|Hex].
    + rewrite Forall_forall in Hall.
      destruct (Layout_keep _ _ _ _ _ n ui HL Hn') as [Hkeep Hnodel].
      * destruct Hwf as [Hlt _]. by eapply Hlt.
      * intros k ui' Hk Heq. simpl in Hk. fold S in Hk.
        rewrite survivors_lookup in Hk. destruct (doomed S false k); [done|].
        destruct Hwf as [_ Hinj]. by eapply Hinj.
      * done.
      * assert (unchanged) by done.
        split; [|done]. split; [done|]. intros _. split; [done|].
        subst tr. rewrite !elem_of_app, list_elem_of_singleton. naive_solver.
    + apply not_Forall_Exists in Hex; [|apply _].
      apply Exists_exists in Hex as (c & Hc & Hcn).
      assert (entryName c = n ∧ ¬ sameClass ui c) as [Hcn' Hdiff].
      { destruct (decide (entryName c = n)) as [|Hne'].
        - split; [done|]. intros Hs. by apply Hcn.
        - exfalso. apply Hcn. by intros ?. }
      destruct (Layout_replace _ _ _ _ n ui HL Hn') as [Hdel Hre]; [by exists c|].
      assert (EvDeleteUI (topLevelUI ui) ∈ tr) as Hdel'.
      { subst tr. set_solver. }
      assert (¬ unchanged) as Hnot.
      { intros (_ & _ & Hsame). by apply Hdiff, Hsame. }
      split; [split; [by intros [_ ?]|done]|].
      intros _. split; [done|]. split; [|done].
      intros _. subst tr. by apply Hlift.
Qed.

(** ** C6: reordering *)

Lemma pyIndex_Some {A} (l : list A) i :
  (- Z.of_nat (length l) ≤ i < Z.of_nat (length l))%Z →
  ∃ o, pyIndex l i = Some o ∧ o < length l.
Proof.
  intros Hi. unfold pyIndex. cbv zeta.
  destruct (decide (0 ≤ i < Z.of_nat (length l))%Z).
  - rewrite bool_decide_eq_true_2 by done. eexists. split; [done|]. lia.
  - rewrite bool_decide_eq_false_2 by done.
    rewrite bool_decide_eq_true_2 by lia. eexists. split; [done|]. lia.
Qed.

Lemma pySliceInsert_Permutation {A} (l : list A) i x :
  pySliceInsert l i x ≡ₚ x :: l.
Proof.
  unfold pySliceInsert. cbv zeta. simpl.
  rewrite <- Permutation_middle. by rewrite take_drop.
Qed.

(** C6. For every class list and every index [oldIndex] that denotes one of
    its positions, [__moveLayer] commits, whatever [newIndex] is (so for each
    target the move menu binds), a permutation of the list the host held:
    the same entries, each as often as before, in a new order. *)
Theorem moveLayer_permutation oldIndex newIndex w :
  (- Z.of_nat (length (hostClasses w)) ≤ oldIndex
   < Z.of_nat (length (hostClasses w)))%Z →
  ∃ cs,
    __moveLayer oldIndex newIndex w = (Ret tt, set_hostClasses cs w, [EvSetClasses cs]) ∧
    cs ≡ₚ hostClasses w.
Proof.
  intros Hi. destruct (pyIndex_Some _ _ Hi) as (o & Ho & Hlt).
  destruct (lookup_lt_is_Some_2 _ _ Hlt) as [cl Hcl].
  exists (pySliceInsert (delete o (hostClasses w)) newIndex cl).
  split.
  - unfold __moveLayer. mrun. by rewrite Ho, Hcl.
  - rewrite pySliceInsert_Permutation. symmetry. by apply delete_Permutation.
Qed.

(** ** C8: plug lookups that fail in [__attributeChanged] *)

(** A loop whose rounds leave the world alone and make at most one host
    call each. *)
Lemma for_emits {A} (l : list A) (body : A → M unit) (f : A → option Event) w :
  (∀ x, x ∈ l → body x w = (Ret tt, w, option_list (f x))) →
  for_ l body w = (Ret tt, w, omap f l).
Proof.
  induction l as [|x l IH]; intros Hl; [done|].
  cbn [for_ omap list_omap]. rewrite bind_run, Hl by left.
  rewrite IH by (intros y Hy; apply Hl; by right).
  by destruct (f x).
Qed.

(** C8. In [__attributeChanged] a preset parameter whose plug cannot be
    looked up is passed over: the callback returns normally, never raising,
    and still updates the label of every other preset parameter whose plug is
    the one that changed. *)
Theorem attributeChanged_skips kAttributeSet self changeType plug w :
  length (presetUIs self) = length (presetParameters self) →
  __attributeChanged kAttributeSet self changeType plug w =
    (Ret tt, w,
     if bool_decide (Z.land changeType kAttributeSet = 0%Z) then []
     else presetLabelUpdates self plug w).
Proof.
  intros Hlen. unfold __attributeChanged.
  destruct (bool_decide (Z.land changeType kAttributeSet = 0%Z)); [done|].
  apply for_emits.
  intros [i p] Hip. unfold enumerate in Hip.
  apply elem_of_lookup_imap in Hip as (j & q & [= -> ->] & Hp).
  assert (is_Some (presetUIs self !! j)) as [control Hc].
  { apply lookup_lt_is_Some_2. rewrite Hlen. by eapply lookup_lt_Some. }
  unfold try_except, parameterPlug, __updatePresetLabel. mrun.
  destruct (parameterPlugs w !! presetParameterName q) as [myPlug|] eqn:Hplug.
  - destruct (decide (plug = myPlug)) as [->|Hne].
    + rewrite !bool_decide_eq_true_2 by done. by rewrite Hc, Hp.
    + rewrite !bool_decide_eq_false_2 by congruence. done.
  - rewrite bool_decide_eq_false_2 by done. done.
Qed.

(** ** C9: optional user data *)

Lemma uiValue_lacks userData key w :
  lacks userData key →
  ∃ k, uiValue userData key w = (Raise (KeyError k), w, []).
Proof.
  unfold lacks, uiValue, getItem. destruct userData as [| | |members]; try done.
  mrun. destruct (members !! "UI") as [[| | |ui]|] eqn:Hui; try done.
  - intros Hkey. rewrite Hkey. eauto.
  - intros _. eauto.
Qed.

(** C9. A missing optional user-data key raises nothing: without an entry
    [["UI"]["collapsable"]] the constructor takes [True], without
    [["UI"]["classNameFilter"]] the class menu takes ["*"] (as it does
    whatever else goes wrong in that lookup), and without the header key a
    parameter is not placed in the header ([False]). *)
Theorem userData_defaults userData w :
  (lacks userData "collapsable" →
     collapsable userData w = (Ret (VBool true), w, [])) ∧
  (lacks userData "classNameFilter" →
     classNameFilter userData w = (Ret (VString "*"), w, [])) ∧
  (∀ e w1 t, uiValue userData "classNameFilter" w = (Raise e, w1, t) →
     classNameFilter userData w = (Ret (VString "*"), w1, t)) ∧
  (∀ uiKey, lacks userData uiKey →
     forHeader userData uiKey w = (Ret (VBool false), w, [])).
Proof.
  repeat split.
  - intros [k Hk]%(uiValue_lacks _ _ w).
    unfold collapsable, ignoringKeyError. by rewrite Hk.
  - intros [k Hk]%(uiValue_lacks _ _ w).
    unfold classNameFilter, try_except. by rewrite Hk.
  - intros e w1 t He. unfold classNameFilter, try_except. rewrite He.
    mrun. by rewrite app_nil_r.
  - intros uiKey [k Hk]%(uiValue_lacks _ _ w).
    unfold forHeader, ignoringKeyError. by rewrite Hk.
Qed.

(** ** The invariants are kept by every mutation *)

Lemma emptyWorld_wf : wfUIs emptyWorld.
Proof. split; simpl; intros *; by rewrite lookup_empty. Qed.

Lemma set_hostClasses_wf cs w : wfUIs w → wfUIs (set_hostClasses cs w).
Proof. done. Qed.

Lemma removeClass_wf pn w r w' tr :
  _removeClass pn w = (r, w', tr) → wfUIs w → wfUIs w'.
Proof.
  intros Hrun Hwf. destruct (preUpdate_completes pn w) as (w1 & tr1 & Hup).
  rewrite (removeClass_run _ _ _ _ Hup) in Hrun. injection Hrun as _ <- _.
  apply set_hostClasses_wf. by eapply update_wf.
Qed.

Lemma setClass_wf pn cn cv w r w' tr :
  _setClass pn cn cv w = (r, w', tr) → wfUIs w → wfUIs w'.
Proof.
  intros Hrun Hwf. destruct (preUpdate_completes pn w) as (w1 & tr1 & Hup).
  pose proof (update_wf _ _ _ _ _ _ Hup Hwf) as Hwf1.
  rewrite (setClass_run _ _ _ _ _ _ Hup) in Hrun.
  destruct (truthy pn); [destruct (findParameter _ _)|];
    injection Hrun as _ <- _; done.
Qed.

(** Parameter names stay distinct in the host's list through every commit
    the widget makes. *)
Lemma classesWithout_NoDup pn cs :
  NoDup (names cs) → NoDup (names (classesWithout pn cs)).
Proof.
  unfold names, classesWithout. induction cs as [|c cs IH]; [done|].
  rewrite fmap_cons, NoDup_cons. intros [Hc Hnd].
  rewrite filter_cons. case_decide; [|by apply IH].
  rewrite fmap_cons, NoDup_cons. split; [|by apply IH].
  intros Hin. apply Hc. by apply (names_classesWithout pn).
Qed.

Lemma removeClass_NoDup pn w r w' tr :
  _removeClass pn w = (r, w', tr) →
  NoDup (names (hostClasses w)) → NoDup (names (hostClasses w')).
Proof.
  intros Hrun Hnd. destruct (preUpdate_completes pn w) as (w1 & tr1 & Hup).
  rewrite (removeClass_run _ _ _ _ Hup) in Hrun. injection Hrun as _ <- _.
  simpl. by apply classesWithout_NoDup.
Qed.

Lemma setClass_NoDup pn cn cv w w' tr :
  _setClass pn cn cv w = (Ret tt, w', tr) →
  NoDup (names (hostClasses w)) → NoDup (names (hostClasses w')).
Proof.
  intros Hrun Hnd. destruct (preUpdate_completes pn w) as (w1 & tr1 & Hup).
  rewrite (setClass_run _ _ _ _ _ _ Hup) in Hrun.
  destruct (truthy pn).
  - destruct (findParameter _ _) as [i|] eqn:Hf; [|done].
    injection Hrun as <- _. simpl.
    destruct (findParameter_Some _ _ _ Hf) as (c & Hi & Hc).
    by rewrite (names_replace _ _ _ _ _ _ Hi Hc).
  - injection Hrun as <- _. simpl.
    destruct (newParameterName_fresh (hostClasses w) (default EmptyString pn))
      as (i & _ & -> & Hfree & _).
    unfold names in *. rewrite fmap_app. apply NoDup_app.
    split; [done|]. split; [|apply NoDup_singleton].
    intros n Hn Hn'. apply list_elem_of_singleton in Hn'. by subst.
Qed.

Lemma moveLayer_NoDup oldIndex newIndex w w' tr :
  __moveLayer oldIndex newIndex w = (Ret tt, w', tr) →
  NoDup (names (hostClasses w)) → NoDup (names (hostClasses w')).
Proof.
  unfold __moveLayer. mrun. intros Hrun Hnd.
  destruct (pyIndex (hostClasses w) oldIndex) as [o|]; [|done].
  destruct (hostClasses w !! o) as [cl|] eqn:Hcl; [|done].
  injection Hrun as <- _. simpl. unfold names in *.
  rewrite pySliceInsert_Permutation, <- (delete_Permutation _ _ _ Hcl). done.
Qed.

(** The two preset lists are built in step. *)
Lemma noPresets_parallel :
  length (presetUIs noPresets) = length (presetParameters noPresets).
Proof. done. Qed.

Lemma appendPreset_parallel parameter control self :
  length (presetUIs self) = length (presetParameters self) →
  length (presetUIs (appendPreset parameter control self))
  = length (presetParameters (appendPreset parameter control self)).
Proof. intros H. simpl. rewrite !length_app, H. done. Qed.

(** Removing an entry that has a ui: the ui is deleted in the part of the
    trace that comes before the commit, and the committed list no longer
    holds the name. *)
Lemma removeClass_deletes_first n ui w :
  childUIs w !! n = Some ui →
  ∃ cs w' tr1,
    _removeClass (Some n) w = (Ret tt, w', tr1 ++ [EvSetClasses cs]) ∧
    EvDeleteUI (topLevelUI ui) ∈ tr1 ∧
    Forall (λ e, ¬ isSetClasses e) tr1 ∧
    childUIs w' !! n = None ∧
    n ∉ names cs.
Proof.
  intros Hui. destruct (preUpdate_completes (Some n) w) as (w1 & tr1 & Hrun).
  assert (n ∉ names (classesWithout (Some n) (hostClasses w))) as Hout.
  { rewrite elem_of_names_classesWithout. by intros [_ ?]. }
  exists (classesWithout (Some n) (hostClasses w)), (set_hostClasses
    (classesWithout (Some n) (hostClasses w)) w1), tr1.
  split; [by apply removeClass_run|]. split; [|split; [|split]].
  - destruct (update_Layout (Some (classesWithout (Some n) (hostClasses w))) false w)
      as (tr2 & tl & _ & Htr & _).
    rewrite Hrun in Htr. simpl in Htr. rewrite Htr.
    apply elem_of_app. left. apply elem_of_deletions. exists n, ui.
    split; [done|]. split; [|done]. apply doomed_true. left.
    by rewrite elem_of_list_to_set.
  - by eapply update_events.
  - simpl. apply (not_elem_of_dom (D := gset string)).
    rewrite (update_keys _ _ _ _ _ Hrun). simpl. by rewrite elem_of_list_to_set.
  - done.
Qed.

(** * Further properties of the widget *)

(** ** How [__updateChildUIs] fails, and what it never does *)



(** [__updateChildUIs] only reads the host: whatever it does to the widget,
    the host's class list, plugs and hierarchy depth are as before, ui names
    are only ever taken, never given back, and no class list is
    committed. *)
Theorem updateChildUIs_reads_host classes startFromScratch w r w' tr :
  __updateChildUIs classes startFromScratch w = (r, w', tr) →
  hostClasses w' = hostClasses w ∧
  parameterPlugs w' = parameterPlugs w ∧
  hierarchyDepth w' = hierarchyDepth w ∧
  nextUI w ≤ nextUI w' ∧
  Forall (λ e, ¬ isSetClasses e) tr.
Proof.
  intros Hrun. destruct (update_host _ _ _ _ _ _ Hrun) as (? & ? & ? & ?).
  repeat split; try done. by eapply update_events.
Qed.

(** ** [replace] on another node: starting from scratch *)

(** The uis built in the second loop get the names the host hands out during
    it. *)
Lemma Layout_created_bounds cs w res w' tr n t :
  Layout cs w res w' tr →
  EvCreateChildUI n t ∈ tr →
  nextUI w ≤ t < nextUI w'.
Proof.
  induction 1 as [w|c cs w ui0 res w' tr Hui0 Hs HL IH
                 |c cs w ui0 res w' tr Hui0 Hs Hh HL IH
                 |c cs w ui0 Hui0 Hs Hh
                 |c cs w res w' tr Hnone Hh HL IH
                 |c cs w Hnone Hh]; intros Hin.
  - by apply elem_of_nil in Hin.
  - by apply IH.
  - apply Layout_host in HL as (_ & _ & _ & Hle). simpl in *.
    apply elem_of_cons in Hin as [?|Hin]; [done|].
    apply elem_of_cons in Hin as [[= -> ->]|Hin]; [lia|].
    specialize (IH Hin). lia.
  - apply list_elem_of_singleton in Hin. done.
  - apply Layout_host in HL as (_ & _ & _ & Hle). simpl in *.
    apply elem_of_cons in Hin as [[= -> ->]|Hin]; [lia|].
    specialize (IH Hin). lia.
  - by apply elem_of_nil in Hin.
Qed.

(** With [startFromScratch] set, as [replace] sets it when the node has
    changed, a completed run deletes every ui that was registered and
    leaves only uis built during the run. *)
Theorem updateChildUIs_from_scratch classes w w' tr :
  __updateChildUIs classes true w = (Ret tt, w', tr) →
  (∀ n ui, childUIs w !! n = Some ui → EvDeleteUI (topLevelUI ui) ∈ tr) ∧
  (∀ n ui, childUIs w' !! n = Some ui →
     nextUI w ≤ topLevelUI ui < nextUI w' ∧
     EvCreateChildUI n (topLevelUI ui) ∈ tr).
Proof.
  intros Hrun.
  destruct (update_Layout classes true w) as (tr2 & tl & HL & Htr & Htl).
  rewrite Hrun in HL, Htr, Htl. simpl in HL, Htr, Htl. destruct Htl as [a ->].
  split.
  - intros n ui Hn. rewrite Htr. apply elem_of_app. left.
    apply elem_of_deletions. exists n, ui. split; [done|]. split; [|done].
    apply doomed_true. by right.
  - intros n ui Hn.
    destruct (Layout_created _ _ _ _ _ n HL) as [Hsame|(t & c & Ht & Hev & _ & _ & Hreg)].
    + rewrite Hn in Hsame. simpl in Hsame. rewrite survivors_lookup in Hsame.
      assert (doomed (list_to_set (names (effective classes w))) true n = true) as Hd
        by (apply doomed_true; by right).
      by rewrite Hd in Hsame.
    + rewrite Hn in Hreg. injection Hreg as ->. simpl in *.
      split; [|rewrite Htr; set_solver].
      by eapply (Layout_created_bounds _ _ _ _ _ n t HL).
Qed.

(** ** What a reconciliation deletes and builds *)

Lemma built_lookup_ne c w n :
  entryName c ≠ n → childUIs (built c w) !! n = childUIs w !! n.
Proof. intros Hne. simpl. by rewrite lookup_insert_ne. Qed.

Lemma NoDup_names_cons c cs :
  NoDup (names (c :: cs)) →
  NoDup (names cs) ∧ ∀ c', c' ∈ cs → entryName c ≠ entryName c'.
Proof.
  unfold names. rewrite fmap_cons, NoDup_cons. intros [Hout Hnd].
  split; [done|]. intros c' Hc' Heq. apply Hout. rewrite Heq.
  apply list_elem_of_fmap. by exists c'.
Qed.

(** Over distinct names, the second loop deletes exactly the uis registered
    under a name of the list with another class. *)
Lemma Layout_deleted_iff cs w w' tr h :
  Layout cs w None w' tr → NoDup (names cs) →
  EvDeleteUI h ∈ tr ↔
  ∃ c ui, c ∈ cs ∧ childUIs w !! entryName c = Some ui ∧
          ¬ sameClass ui c ∧ topLevelUI ui = h.
Proof.
  intros HL. remember None as res eqn:Hres. revert Hres.
  induction HL as [w|c cs w ui0 res w' tr Hui0 Hs HL IH
                  |c cs w ui0 res w' tr Hui0 Hs Hh HL IH
                  |c cs w ui0 Hui0 Hs Hh
                  |c cs w res w' tr Hnone Hh HL IH
                  |c cs w Hnone Hh]; intros Hres Hnd; try done.
  - split; [by intros ?%elem_of_nil|]. intros (c & ui & Hc & _). set_solver.
  - apply NoDup_names_cons in Hnd as [Hnd Hne]. rewrite (IH Hres Hnd). split.
    + intros (c' & ui & Hc' & ?). exists c', ui. set_solver.
    + intros (c' & ui & Hc' & Hui & Hdiff & Hh).
      apply elem_of_cons in Hc' as [->|Hc']; [|by exists c', ui].
      rewrite Hui0 in Hui. by injection Hui as ->.
  - apply NoDup_names_cons in Hnd as [Hnd Hne].
    rewrite !elem_of_cons, (IH Hres Hnd). split.
    + intros [[= ->]|[?|(c' & ui & Hc' & Hui & Hdiff & Hh')]]; [|done|].
      * exists c, ui0. set_solver.
      * exists c', ui. rewrite built_lookup_ne in Hui by (by apply Hne).
        set_solver.
    + intros (c' & ui & Hc' & Hui & Hdiff & Hh').
      apply elem_of_cons in Hc' as [->|Hc'].
      * left. by simplify_eq.
      * right. right. exists c', ui.
        rewrite built_lookup_ne by (by apply Hne). done.
  - apply NoDup_names_cons in Hnd as [Hnd Hne].
    rewrite !elem_of_cons, (IH Hres Hnd). split.
    + intros [?|(c' & ui & Hc' & Hui & Hdiff & Hh')]; [done|].
      exists c', ui. rewrite built_lookup_ne in Hui by (by apply Hne).
      set_solver.
    + intros (c' & ui & Hc' & Hui & Hdiff & Hh').
      apply elem_of_cons in Hc' as [->|Hc']; [congruence|].
      right. exists c', ui. rewrite built_lookup_ne by (by apply Hne). done.
Qed.

(** It builds a ui exactly for the names of the list that have no ui of the
    entry's class, and that ui is the one registered in the end. *)
Lemma Layout_created_iff cs w w' tr n t :
  Layout cs w None w' tr → NoDup (names cs) →
  EvCreateChildUI n t ∈ tr ↔
  ∃ c, c ∈ cs ∧ entryName c = n ∧
       (∀ ui, childUIs w !! n = Some ui → ¬ sameClass ui c) ∧
       childUIs w' !! n = Some (mkChildUI t (entryClass c) (entryVersion c)).
Proof.
  intros HL. remember None as res eqn:Hres. revert Hres.
  induction HL as [w|c cs w ui0 res w' tr Hui0 Hs HL IH
                  |c cs w ui0 res w' tr Hui0 Hs Hh HL IH
                  |c cs w ui0 Hui0 Hs Hh
                  |c cs w res w' tr Hnone Hh HL IH
                  |c cs w Hnone Hh]; intros Hres Hnd; try done.
  - split; [by intros ?%elem_of_nil|]. intros (c & Hc & _). set_solver.
  - apply NoDup_names_cons in Hnd as [Hnd Hne]. rewrite (IH Hres Hnd). split.
    + intros (c' & Hc' & ?). exists c'. set_solver.
    + intros (c' & Hc' & <- & Hold & Hreg).
      apply elem_of_cons in Hc' as [->|Hc']; [by apply Hold in Hui0|].
      by exists c'.
  - pose proof Hnd as Hnd0. apply NoDup_names_cons in Hnd as [Hnd Hne].
    assert (childUIs w' !! entryName c
            = Some (mkChildUI (nextUI w) (entryClass c) (entryVersion c))) as Hhead.
    { rewrite (Layout_frame _ _ _ _ _ (entryName c) HL); [simpl; apply lookup_insert_eq|].
      intros Hin. apply list_elem_of_fmap in Hin as (c' & Heq & Hc').
      by apply (Hne c'). }
    rewrite !elem_of_cons, (IH Hres Hnd). split.
    + intros [?|[[= -> ->]|(c' & Hc' & <- & Hold & Hreg)]]; [done| |].
      * exists c. split; [left|]. split; [done|]. split; [|done].
        intros ui Hui. rewrite Hui0 in Hui. by injection Hui as <-.
      * exists c'. split; [by right|]. split; [done|]. split; [|done].
        intros ui Hui. apply Hold. by rewrite built_lookup_ne by (by apply Hne).
    + intros (c' & Hc' & <- & Hold & Hreg).
      apply elem_of_cons in Hc' as [->|Hc'].
      * right. left. rewrite Hhead in Hreg. by injection Hreg as <-.
      * right. right. exists c'. split; [done|]. split; [done|]. split; [|done].
        intros ui Hui. apply Hold. by rewrite built_lookup_ne in Hui by (by apply Hne).
  - pose proof Hnd as Hnd0. apply NoDup_names_cons in Hnd as [Hnd Hne].
    assert (childUIs w' !! entryName c
            = Some (mkChildUI (nextUI w) (entryClass c) (entryVersion c))) as Hhead.
    { rewrite (Layout_frame _ _ _ _ _ (entryName c) HL); [simpl; apply lookup_insert_eq|].
      intros Hin. apply list_elem_of_fmap in Hin as (c' & Heq & Hc').
      by apply (Hne c'). }
    rewrite !elem_of_cons, (IH Hres Hnd). split.
    + intros [[= -> ->]|(c' & Hc' & <- & Hold & Hreg)].
      * exists c. split; [left|]. split; [done|]. split; [|done].
        intros ui Hui. congruence.
      * exists c'. split; [by right|]. split; [done|]. split; [|done].
        intros ui Hui. apply Hold. by rewrite built_lookup_ne by (by apply Hne).
    + intros (c' & Hc' & <- & Hold & Hreg).
      apply elem_of_cons in Hc' as [->|Hc'].
      * left. rewrite Hhead in Hreg. by injection Hreg as <-.
      * right. exists c'. split; [done|]. split; [done|]. split; [|done].
        intros ui Hui. apply Hold. by rewrite built_lookup_ne in Hui by (by apply Hne).
Qed.

(** A ui of the entry's class stays registered. *)
Lemma Layout_kept cs w res w' tr c ui :
  Layout cs w res w' tr → NoDup (names cs) →
  c ∈ cs → childUIs w !! entryName c = Some ui → sameClass ui c →
  childUIs w' !! entryName c = Some ui.
Proof.
  induction 1 as [w|c0 cs w ui0 res w' tr Hui0 Hs HL IH
                 |c0 cs w ui0 res w' tr Hui0 Hs Hh HL IH
                 |c0 cs w ui0 Hui0 Hs Hh
                 |c0 cs w res w' tr Hnone Hh HL IH
                 |c0 cs w Hnone Hh]; intros Hnd Hc Hui Hsame; try done.
  - apply NoDup_names_cons in Hnd as [Hnd Hne].
    apply elem_of_cons in Hc as [->|Hc]; [|by apply IH].
    rewrite (Layout_frame _ _ _ _ _ (entryName c0) HL); [done|].
    intros Hin. apply list_elem_of_fmap in Hin as (c' & Heq & Hc').
    by apply (Hne c').
  - apply NoDup_names_cons in Hnd as [Hnd Hne].
    apply elem_of_cons in Hc as [->|Hc]; [congruence|].
    apply IH; try done. by rewrite built_lookup_ne by (by apply Hne).
  - apply NoDup_names_cons in Hnd as [Hnd Hne].
    apply elem_of_cons in Hc as [->|Hc]; [congruence|].
    apply IH; try done. by rewrite built_lookup_ne by (by apply Hne).
Qed.

Lemma NoDup_names_inj cs c c' :
  NoDup (names cs) → c ∈ cs → c' ∈ cs → entryName c = entryName c' → c = c'.
Proof.
  induction cs as [|c0 cs IH]; intros Hnd Hc Hc' Heq; [by apply elem_of_nil in Hc|].
  apply NoDup_names_cons in Hnd as [Hnd Hne].
  apply elem_of_cons in Hc as [->|Hc]; apply elem_of_cons in Hc' as [->|Hc'].
  - done.
  - by apply Hne in Hc'.
  - symmetry in Heq. by apply Hne in Hc.
  - by apply IH.
Qed.

Lemma doomed_not_kept cs scratch n ui :
  doomed (list_to_set (names cs)) scratch n = true → ¬ kept cs scratch n ui.
Proof.
  intros Hd (-> & c & Hc & <- & _). apply doomed_true in Hd as [Hd|?]; [|done].
  apply Hd. apply elem_of_list_to_set, list_elem_of_fmap. by exists c.
Qed.

Lemma not_doomed cs scratch n :
  doomed (list_to_set (names cs)) scratch n = false →
  scratch = false ∧ ∃ c, c ∈ cs ∧ entryName c = n.
Proof.
  intros Hd. destruct scratch.
  - assert (doomed (list_to_set (names cs)) true n = true)
      by (apply doomed_true; by right). congruence.
  - split; [done|]. destruct (decide (n ∈ names cs)) as [Hin|Hout].
    + apply list_elem_of_fmap in Hin as (c & -> & Hc). by exists c.
    + assert (doomed (list_to_set (names cs)) false n = true); [|congruence].
      apply doomed_true. left. by rewrite elem_of_list_to_set.
Qed.

(** The difference a completed reconciliation over distinct names makes:
    which uis it deletes, which it builds, which it leaves. *)
Lemma update_diff classes scratch w w' tr :
  __updateChildUIs classes scratch w = (Ret tt, w', tr) →
  NoDup (names (effective classes w)) →
  (∀ h, EvDeleteUI h ∈ tr ↔
        ∃ n ui, childUIs w !! n = Some ui ∧ topLevelUI ui = h ∧
                ¬ kept (effective classes w) scratch n ui) ∧
  (∀ n t, EvCreateChildUI n t ∈ tr ↔
          ∃ c, c ∈ effective classes w ∧ entryName c = n ∧
               (∀ ui, childUIs w !! n = Some ui →
                      ¬ kept (effective classes w) scratch n ui) ∧
               childUIs w' !! n = Some (mkChildUI t (entryClass c) (entryVersion c))) ∧
  (∀ n ui, childUIs w !! n = Some ui →
           kept (effective classes w) scratch n ui →
           childUIs w' !! n = Some ui).
Proof.
  intros Hrun Hnd. set (cs := effective classes w) in *.
  destruct (update_Layout classes scratch w) as (tr2 & tl & HL & Htr & Htl).
  rewrite Hrun in HL, Htr, Htl. simpl in HL, Htr, Htl. destruct Htl as [a ->].
  fold cs in HL, Htr.
  assert (∀ n ui, childUIs (pruned cs scratch w) !! n = Some ui ↔
                  childUIs w !! n = Some ui ∧
                  doomed (list_to_set (names cs)) scratch n = false) as Hpr.
  { intros n ui. unfold pruned. simpl. rewrite survivors_lookup.
    destruct (doomed _ _ n); naive_solver. }
  split; [|split].
  - intros h. rewrite Htr, !elem_of_app, list_elem_of_singleton.
    rewrite elem_of_deletions, (Layout_deleted_iff _ _ _ _ h HL Hnd). split.
    + intros [(k & ui & Hk & Hd & [= ->])|[(c & ui & Hc & Hui & Hdiff & <-)|?]];
        [| |done].
      * exists k, ui. split; [done|]. split; [done|]. by apply doomed_not_kept.
      * apply Hpr in Hui as [Hui Hd]. exists (entryName c), ui.
        split; [done|]. split; [done|].
        intros (_ & c' & Hc' & Heq & Hsame).
        by rewrite (NoDup_names_inj _ _ _ Hnd Hc' Hc Heq) in Hsame.
    + intros (n & ui & Hui & <- & Hnot).
      destruct (doomed (list_to_set (names cs)) scratch n) eqn:Hd.
      * left. by exists n, ui.
      * right. left. destruct (not_doomed _ _ _ Hd) as (-> & c & Hc & <-).
        exists c, ui. split; [done|]. split; [by apply Hpr|]. split; [|done].
        intros Hsame. apply Hnot. split; [done|]. by exists c.
  - intros n t. rewrite Htr, !elem_of_app, list_elem_of_singleton.
    rewrite elem_of_deletions, (Layout_created_iff _ _ _ _ n t HL Hnd). split.
    + intros [(k & ui & _ & _ & ?)|[(c & Hc & <- & Hold & Hreg)|?]]; [done| |done].
      exists c. split; [done|]. split; [done|]. split; [|done].
      intros ui Hui (-> & c' & Hc' & Heq & Hsame).
      rewrite (NoDup_names_inj _ _ _ Hnd Hc' Hc Heq) in Hsame.
      apply (Hold ui); [|done]. apply Hpr. split; [done|].
      apply doomed_false. apply elem_of_list_to_set, list_elem_of_fmap. by exists c.
    + intros (c & Hc & <- & Hold & Hreg). right. left.
      exists c. split; [done|]. split; [done|]. split; [|done].
      intros ui Hui Hsame. apply Hpr in Hui as [Hui Hd].
      apply (Hold ui Hui). destruct (not_doomed _ _ _ Hd) as (-> & _).
      split; [done|]. by exists c.
  - intros n ui Hui (-> & c & Hc & <- & Hsame).
    eapply Layout_kept; [exact HL|done..| |done].
    apply Hpr. split; [done|].
    apply doomed_false. apply elem_of_list_to_set, list_elem_of_fmap. by exists c.
Qed.

(** Over a list with distinct names a completed reconciliation deletes
    exactly the registered uis it does not keep (those whose name left the
    list or whose class differs from the entry's, and all of them when
    starting from scratch), builds a ui exactly for the names of the list
    that had none to keep, and leaves every kept ui registered as it
    was. *)
Theorem updateChildUIs_diff classes startFromScratch w w' tr :
  __updateChildUIs classes startFromScratch w = (Ret tt, w', tr) →
  NoDup (names (effective classes w)) →
  (∀ h, EvDeleteUI h ∈ tr ↔
        ∃ n ui, childUIs w !! n = Some ui ∧ topLevelUI ui = h ∧
                ¬ kept (effective classes w) startFromScratch n ui) ∧
  (∀ n t, EvCreateChildUI n t ∈ tr ↔
          ∃ c, c ∈ effective classes w ∧ entryName c = n ∧
               (∀ ui, childUIs w !! n = Some ui →
                      ¬ kept (effective classes w) startFromScratch n ui) ∧
               childUIs w' !! n = Some (mkChildUI t (entryClass c) (entryVersion c))) ∧
  (∀ n ui, childUIs w !! n = Some ui →
           kept (effective classes w) startFromScratch n ui →
           childUIs w' !! n = Some ui).
Proof. apply update_diff. Qed.

(** ** Reconciling a registry that shows one list against another *)

Lemma sameClass_eq ui c c' :
  sameClass ui c → sameClass ui c' → entryName c = entryName c' → c = c'.
Proof.
  destruct c, c'. unfold sameClass. simpl. intros [? ?] [? ?] ?. congruence.
Qed.

Lemma update_agrees classes scratch w w' tr :
  __updateChildUIs classes scratch w = (Ret tt, w', tr) →
  NoDup (names (effective classes w)) →
  agrees (childUIs w') (effective classes w).
Proof.
  intros Hrun Hnd.
  destruct (update_Layout classes scratch w) as (tr2 & tl & HL & _).
  rewrite Hrun in HL. simpl in HL. by eapply Layout_agrees.
Qed.

Lemma shows_lookup w old n ui :
  shows w old → childUIs w !! n = Some ui →
  ∃ c, c ∈ old ∧ entryName c = n ∧ sameClass ui c.
Proof.
  intros (_ & Hdom & Hag) Hui.
  assert (n ∈ names old) as Hn.
  { apply (elem_of_list_to_set (C := gset string)). rewrite <- Hdom.
    by apply elem_of_dom. }
  apply list_elem_of_fmap in Hn as (c & -> & Hc).
  destruct (Hag c Hc) as (ui' & Hui' & Hs). exists c.
  rewrite Hui in Hui'. by injection Hui' as <-.
Qed.

(** When the registry shows a list [old], reconciling it against a list [cs]
    of distinct names that the host holds completes and goes by the entries:
    it deletes the uis of the entries of [old] that are not in [cs], builds
    uis for the entries of [cs] that are not in [old], leaves the uis of the
    entries in both untouched, and ends with the registry showing [cs]. *)
Lemma update_shows classes w old :
  let cs := effective classes w in
  shows w old →
  NoDup (names cs) →
  names cs ⊆ names (hostClasses w) →
  ∃ w' tr,
    __updateChildUIs classes false w = (Ret tt, w', tr) ∧
    hostClasses w' = hostClasses w ∧
    shows w' cs ∧
    (∀ h, EvDeleteUI h ∈ tr ↔
          ∃ c ui, c ∈ old ∧ (c ∉ cs) ∧
                  childUIs w !! entryName c = Some ui ∧ topLevelUI ui = h) ∧
    (∀ n t, EvCreateChildUI n t ∈ tr ↔
            ∃ c, c ∈ cs ∧ (c ∉ old) ∧ entryName c = n ∧
                 childUIs w' !! n = Some (mkChildUI t (entryClass c) (entryVersion c))) ∧
    (∀ c, c ∈ old → c ∈ cs →
          childUIs w' !! entryName c = childUIs w !! entryName c).
Proof.
  intros cs Hshows Hnd Hsub.
  destruct (update_completes classes false w Hsub) as (w' & tr & Hrun).
  destruct (update_diff _ _ _ _ _ Hrun Hnd) as (Hdel & Hcre & Hkept).
  fold cs in Hdel, Hcre, Hkept.
  exists w', tr. split; [done|]. split; [by eapply update_host|].
  split; [|split; [|split]].
  - split; [done|]. split; [by apply (update_keys _ _ _ _ _ Hrun)|].
    by apply (update_agrees _ _ _ _ _ Hrun).
  - intros h. rewrite Hdel. split.
    + intros (n & ui & Hui & <- & Hnot).
      destruct (shows_lookup _ _ _ _ Hshows Hui) as (c & Hc & <- & Hs).
      exists c, ui. split; [done|]. split; [|done].
      intros Hin. apply Hnot. split; [done|]. by exists c.
    + intros (c & ui & Hc & Hout & Hui & <-).
      exists (entryName c), ui. split; [done|]. split; [done|].
      intros (_ & c' & Hc' & Heq & Hs').
      destruct (shows_lookup _ _ _ _ Hshows Hui) as (c0 & Hc0 & Heq0 & Hs0).
      destruct Hshows as (Hndold & _).
      rewrite (NoDup_names_inj _ _ _ Hndold Hc Hc0 (eq_sym Heq0)) in Hout.
      by rewrite (sameClass_eq _ _ _ Hs0 Hs' (eq_trans Heq0 (eq_sym Heq))) in Hout.
  - intros n t. rewrite Hcre. split.
    + intros (c & Hc & <- & Hold & Hreg). exists c.
      split; [done|]. split; [|done].
      intros Hin. destruct Hshows as (_ & _ & Hag).
      destruct (Hag c Hin) as (ui & Hui & Hs).
      apply (Hold ui Hui). split; [done|]. by exists c.
    + intros (c & Hc & Hout & <- & Hreg). exists c.
      split; [done|]. split; [done|]. split; [|done].
      intros ui Hui (_ & c' & Hc' & Heq & Hs').
      destruct (shows_lookup _ _ _ _ Hshows Hui) as (c0 & Hc0 & Heq0 & Hs0).
      rewrite (NoDup_names_inj _ _ _ Hnd Hc' Hc Heq) in Hs'.
      by rewrite (sameClass_eq _ _ _ Hs0 Hs' Heq0) in Hc0.
  - intros c Hc Hin. destruct Hshows as (_ & _ & Hag).
    destruct (Hag c Hc) as (ui & Hui & Hs). rewrite Hui.
    apply Hkept; [done|]. split; [done|]. by exists c.
Qed.

(** ** A mutation and the callback that follows it *)

Lemma elem_of_classesWithout pn cs c :
  c ∈ classesWithout pn cs ↔ c ∈ cs ∧ Some (entryName c) ≠ pn.
Proof. unfold classesWithout. rewrite list_elem_of_filter. tauto. Qed.

Lemma set_hostClasses_shows cs cs' w :
  shows w cs → shows (set_hostClasses cs' w) cs.
Proof. done. Qed.

Lemma shows_not_held w cs n :
  shows w cs → n ∉ names cs → childUIs w !! n = None.
Proof.
  intros (_ & Hdom & _) Hn. apply (not_elem_of_dom (D := gset string)).
  rewrite Hdom. by rewrite elem_of_list_to_set.
Qed.

(** The host's callback brings a registry that shows some list [old] in step
    with the host. *)
Lemma callback_shows w old :
  shows w old →
  NoDup (names (hostClasses w)) →
  ∃ w' tr,
    _classesSetCallback w = (Ret tt, w', tr) ∧
    hostClasses w' = hostClasses w ∧
    synced w' ∧
    (∀ h, EvDeleteUI h ∈ tr ↔
          ∃ c ui, c ∈ old ∧ (c ∉ hostClasses w) ∧
                  childUIs w !! entryName c = Some ui ∧ topLevelUI ui = h) ∧
    (∀ n t, EvCreateChildUI n t ∈ tr ↔
            ∃ c, c ∈ hostClasses w ∧ (c ∉ old) ∧ entryName c = n ∧
                 childUIs w' !! n = Some (mkChildUI t (entryClass c) (entryVersion c))) ∧
    (∀ c, c ∈ old → c ∈ hostClasses w →
          childUIs w' !! entryName c = childUIs w !! entryName c).
Proof.
  intros Hshows Hnd.
  destruct (update_shows None w old Hshows Hnd) as
    (w' & tr & Hrun & Hhost & Hs & Hrest); [done|].
  exists w', tr. split; [done|]. split; [done|]. split; [|done].
  unfold synced. by rewrite Hhost.
Qed.

Lemma thenCallback_run m w w1 t1 w' t2 :
  m w = (Ret tt, w1, t1) →
  _classesSetCallback w1 = (Ret tt, w', t2) →
  thenCallback m w = (Ret tt, w', t1 ++ t2).
Proof.
  intros Hm Hcb. unfold thenCallback. by rewrite bind_run, Hm, Hcb.
Qed.

(** Removing an entry while the widget is in step with the host: the call
    and the callback that follows complete, delete the ui of that entry and
    no other, build none, and leave the widget in step with the list without
    the entry.  For a name the host does not hold nothing is deleted and the
    same list is committed again. *)
Theorem removeClass_then_callback n w :
  synced w →
  ∃ w' tr,
    thenCallback (_removeClass (Some n)) w = (Ret tt, w', tr) ∧
    synced w' ∧
    hostClasses w' = classesWithout (Some n) (hostClasses w) ∧
    childUIs w' = delete n (childUIs w) ∧
    (∀ h, EvDeleteUI h ∈ tr ↔
          ∃ ui, childUIs w !! n = Some ui ∧ topLevelUI ui = h) ∧
    (∀ k t, EvCreateChildUI k t ∉ tr).
Proof.
  intros Hsync. pose proof Hsync as (Hnd & Hdom & Hag).
  set (cs := classesWithout (Some n) (hostClasses w)).
  destruct (update_shows (Some cs) w (hostClasses w) Hsync) as
    (w1 & tr1 & Hrun1 & Hhost1 & Hs1 & Hdel1 & Hcre1 & Hkept1).
  { by apply classesWithout_NoDup. }
  { apply names_classesWithout. }
  simpl in Hs1, Hdel1, Hcre1, Hkept1.
  pose proof (removeClass_run _ _ _ _ Hrun1) as Hrem. fold cs in Hrem.
  destruct (callback_shows (set_hostClasses cs w1) cs) as
    (w' & tr2 & Hrun2 & Hhost2 & Hs2 & Hdel2 & Hcre2 & Hkept2).
  { by apply set_hostClasses_shows. }
  { by apply classesWithout_NoDup. }
  simpl in Hhost2, Hdel2, Hcre2, Hkept2.
  exists w', ((tr1 ++ [EvSetClasses cs]) ++ tr2).
  split; [by eapply thenCallback_run|]. split; [done|]. split; [done|].
  assert (shows w' cs) as Hs2'.
  { unfold synced in Hs2. by rewrite Hhost2 in Hs2. }
  assert (∀ c, c ∈ cs → childUIs w' !! entryName c = childUIs w !! entryName c)
    as Hsame.
  { intros c Hc. rewrite Hkept2 by done. simpl. apply Hkept1; [|done].
    by apply elem_of_classesWithout in Hc as [? _]. }
  split; [|split].
  - apply map_eq. intros k. destruct (decide (k = n)) as [->|Hne].
    + rewrite lookup_delete_eq. apply (shows_not_held _ cs); [done|].
      unfold cs. rewrite elem_of_names_classesWithout. by intros [_ ?].
    + rewrite lookup_delete_ne by done.
      destruct (decide (k ∈ names cs)) as [Hin|Hout].
      * apply list_elem_of_fmap in Hin as (c & -> & Hc). by apply Hsame.
      * rewrite (shows_not_held _ cs) by done.
        symmetry. apply (shows_not_held _ (hostClasses w)); [done|].
        intros Hin. apply Hout. unfold cs. apply elem_of_names_classesWithout.
        split; [done|]. congruence.
  - intros h. rewrite !elem_of_app, list_elem_of_singleton, Hdel1, Hdel2. split.
    + intros [[(c & ui & Hc & Hout & Hui & <-)|?]|(c & ui & Hc & Hout & _)];
        [|done|done].
      exists ui. split; [|done].
      destruct (decide (entryName c = n)) as [<-|Hne]; [done|].
      exfalso. apply Hout. apply elem_of_classesWithout. split; [done|]. congruence.
    + intros (ui & Hui & <-). left. left.
      destruct (shows_lookup _ _ _ _ Hsync Hui) as (c & Hc & <- & _).
      exists c, ui. split; [done|]. split; [|done].
      intros [_ Hne]%elem_of_classesWithout. done.
  - intros k t. rewrite !elem_of_app, list_elem_of_singleton, Hcre1, Hcre2.
    intros [[(c & Hc & Hout & _)|?]|(c & Hc & Hout & _)]; [|done|done].
    apply Hout. by apply elem_of_classesWithout in Hc as [? _].
Qed.

Lemma findParameter_held n cs :
  n ∈ names cs → ∃ i, findParameter n cs = Some i.
Proof.
  intros Hn. apply list_elem_of_fmap in Hn as (c & -> & Hc).
  unfold findParameter.
  destruct (list_find_elem_of (λ c', entryName c' = entryName c) cs c Hc eq_refl)
    as [[i c'] Hf].
  exists i. by rewrite Hf.
Qed.

(** The entries of a list after the entry at [i] has been replaced by one of
    the same name. *)
Lemma elem_of_replace cs i c new c0 :
  NoDup (names cs) → cs !! i = Some c → entryName new = entryName c →
  c0 ∈ <[i := new]> cs ↔ c0 = new ∨ (c0 ∈ cs ∧ entryName c0 ≠ entryName c).
Proof.
  intros Hnd Hi Hname. rewrite list_elem_of_lookup. split.
  - intros [j Hj]. apply list_lookup_insert_Some in Hj as [(_ & -> & _)|[Hne Hj]].
    + by left.
    + right. split; [by eapply list_elem_of_lookup_2|].
      intros Heq. apply Hne.
      apply (NoDup_lookup (names cs) i j (entryName c)); [done|..].
      * unfold names. by rewrite list_lookup_fmap, Hi.
      * unfold names. rewrite list_lookup_fmap, Hj. simpl. by rewrite Heq.
  - intros [->|[Hc0 Hne]].
    + exists i. apply list_lookup_insert_Some. left.
      split; [done|]. split; [done|]. by eapply lookup_lt_Some.
    + apply list_elem_of_lookup in Hc0 as [j Hj]. exists j.
      apply list_lookup_insert_Some. right. split; [|done].
      intros ->. rewrite Hi in Hj. by injection Hj as ->.
Qed.

Lemma update_created_bounds classes scratch w r w' tr n t :
  __updateChildUIs classes scratch w = (r, w', tr) →
  EvCreateChildUI n t ∈ tr →
  nextUI w ≤ t < nextUI w'.
Proof.
  intros Hrun Hin.
  destruct (update_Layout classes scratch w) as (tr2 & tl & HL & Htr & Htl).
  rewrite Hrun in HL, Htr, Htl. simpl in HL, Htr, Htl. subst tr.
  apply elem_of_app in Hin as [Hin|Hin].
  { apply elem_of_deletions in Hin as (? & ? & _ & _ & ?). done. }
  apply elem_of_app in Hin as [Hin|Hin].
  { by apply (Layout_created_bounds _ _ _ _ _ _ _ HL Hin). }
  destruct r; [destruct Htl as [a' ->]|subst tl].
  - by apply list_elem_of_singleton in Hin.
  - by apply elem_of_nil in Hin.
Qed.

(** Giving an entry another class (or version) while the widget is in step
    with the host: the call and the callback that follows complete, put the
    new class at the entry's place in the host's list, delete the entry's ui
    and no other, build one new ui, for that entry, and leave the widget in
    step.  This is so even when the class and version given are the ones
    the entry has. *)
Theorem setClass_then_callback n cn cv w :
  synced w →
  n ≠ EmptyString →
  n ∈ names (hostClasses w) →
  ∃ i c ui t w' tr,
    hostClasses w !! i = Some c ∧ entryName c = n ∧
    childUIs w !! n = Some ui ∧
    thenCallback (_setClass (Some n) cn cv) w = (Ret tt, w', tr) ∧
    synced w' ∧
    hostClasses w' = <[i := mkEntry n cn cv]> (hostClasses w) ∧
    childUIs w' = <[n := mkChildUI t cn cv]> (childUIs w) ∧
    nextUI w ≤ t ∧
    (∀ h, EvDeleteUI h ∈ tr ↔ h = topLevelUI ui) ∧
    (∀ k t', EvCreateChildUI k t' ∈ tr ↔ k = n ∧ t' = t).
Proof.
  intros Hsync Hne Hn. pose proof Hsync as (Hnd & Hdom & Hag).
  destruct (findParameter_held _ _ Hn) as [i Hf].
  destruct (findParameter_Some _ _ _ Hf) as (c & Hi & Hc).
  assert (c ∈ hostClasses w) as Hcin by (by eapply list_elem_of_lookup_2).
  destruct (Hag c Hcin) as (ui & Hui & Hs). rewrite Hc in Hui.
  set (cs1 := classesWithout (Some n) (hostClasses w)).
  set (new := mkEntry n cn cv).
  set (host' := <[i := new]> (hostClasses w)).
  assert (∀ c0, c0 ∈ host' ↔ c0 = new ∨ (c0 ∈ hostClasses w ∧ entryName c0 ≠ n))
    as Hhost'.
  { intros c0. unfold host'. rewrite (elem_of_replace _ _ c) by done.
    by rewrite Hc. }
  assert (∀ c0, c0 ∈ cs1 ↔ c0 ∈ hostClasses w ∧ entryName c0 ≠ n) as Hcs1.
  { intros c0. unfold cs1. rewrite elem_of_classesWithout.
    split; intros [? ?]; (split; [done|congruence]). }
  assert (names host' = names (hostClasses w)) as Hnames
    by (by apply (names_replace _ _ c)).
  destruct (update_shows (Some cs1) w (hostClasses w) Hsync) as
    (w1 & tr1 & Hrun1 & Hhost1 & Hs1 & Hdel1 & Hcre1 & Hkept1).
  { by apply classesWithout_NoDup. }
  { apply names_classesWithout. }
  simpl in Hs1, Hdel1, Hcre1, Hkept1.
  pose proof (setClass_run (Some n) cn cv _ _ _ Hrun1) as Hset. simpl in Hset.
  rewrite bool_decide_eq_true_2, Hf in Hset by done. fold new host' in Hset.
  destruct (callback_shows (set_hostClasses host' w1) cs1) as
    (w' & tr2 & Hrun2 & Hhost2 & Hs2 & Hdel2 & Hcre2 & Hkept2).
  { by apply set_hostClasses_shows. }
  { simpl. by rewrite Hnames. }
  simpl in Hhost2, Hdel2, Hcre2, Hkept2.
  assert (shows w' host') as Hs2'.
  { unfold synced in Hs2. by rewrite Hhost2 in Hs2. }
  assert (new ∈ host') as Hnew by (apply Hhost'; by left).
  destruct Hs2' as (_ & Hdom' & Hag').
  destruct (Hag' new Hnew) as (ui' & Hui' & [Hcn Hcv]). simpl in Hui', Hcn, Hcv.
  assert (ui' = mkChildUI (topLevelUI ui') cn cv) as Hui'eq.
  { destruct ui'. simpl in *. by subst. }
  assert (∀ k t', EvCreateChildUI k t' ∈ tr2 ↔ k = n ∧ t' = topLevelUI ui') as Hcre.
  { intros k t'. rewrite Hcre2. split.
    - intros (c0 & Hc0 & Hout & <- & Hreg).
      apply Hhost' in Hc0 as [->|Hc0]; [|by apply Hcs1 in Hc0].
      simpl in *. split; [done|]. rewrite Hui' in Hreg. by injection Hreg as ->.
    - intros [-> ->]. exists new. split; [done|]. split.
      + intros [_ ?]%Hcs1. done.
      + split; [done|]. simpl. by rewrite Hui', Hui'eq at 1. }
  exists i, c, ui, (topLevelUI ui'), w', ((tr1 ++ [EvSetClasses host']) ++ tr2).
  split; [done|]. split; [done|]. split; [done|].
  split; [by eapply thenCallback_run|]. split; [done|]. split; [done|].
  split; [|split; [|split]].
  - apply map_eq. intros k. destruct (decide (k = n)) as [->|Hkn].
    + by rewrite lookup_insert_eq, Hui', Hui'eq at 1.
    + rewrite lookup_insert_ne by done.
      destruct (decide (k ∈ names (hostClasses w))) as [Hin|Hout].
      * apply list_elem_of_fmap in Hin as (c0 & -> & Hc0).
        assert (c0 ∈ cs1) as Hc1 by (apply Hcs1; by split).
        rewrite Hkept2; [simpl; by apply Hkept1|done|].
        apply Hhost'. right. by split.
      * rewrite (shows_not_held w (hostClasses w) k) by done.
        apply (not_elem_of_dom (D := gset string)).
        rewrite Hdom', Hnames. by rewrite elem_of_list_to_set.
  - assert (EvCreateChildUI n (topLevelUI ui') ∈ tr2) as Hin by (by apply Hcre).
    pose proof (update_created_bounds None false _ _ _ _ _ _ Hrun2 Hin) as [Hle _].
    simpl in Hle. pose proof (update_host _ _ _ _ _ _ Hrun1) as (_ & _ & _ & Hle1).
    lia.
  - intros h. rewrite !elem_of_app, list_elem_of_singleton, Hdel1, Hdel2. split.
    + intros [[(c0 & ui0 & Hc0 & Hout & Hui0 & <-)|?]|(c0 & ui0 & Hc0 & Hout & _)];
        [|done|].
      * destruct (decide (entryName c0 = n)) as [Heq|Hneq].
        -- rewrite Heq, Hui in Hui0. by injection Hui0 as <-.
        -- exfalso. by apply Hout, Hcs1.
      * exfalso. apply Hout, Hhost'. right. by apply Hcs1.
    + intros ->. left. left. exists c, ui. split; [done|].
      split; [|by rewrite Hc]. intros [_ ?]%Hcs1. done.
  - intros k t'. rewrite !elem_of_app, list_elem_of_singleton, Hcre1, Hcre. split.
    + intros [[(c0 & Hc0 & Hout & _)|?]|?]; [|done|done].
      exfalso. by apply Hout, Hcs1.
    + intros ?. by right.
Qed.

(** A registry that already shows the list is left alone: the run makes the
    layout edit and nothing else. *)
Lemma update_noop classes w :
  dom (childUIs w) = list_to_set (names (effective classes w)) →
  agrees (childUIs w) (effective classes w) →
  ∃ a, __updateChildUIs classes false w = (Ret tt, w, [EvFormLayout a]).
Proof.
  intros Hdom Hag.
  destruct (update_Layout classes false w) as (tr2 & tl & HL & Htr & Htl).
  assert (pruned (effective classes w) false w = w) as Hpr.
  { unfold pruned. rewrite survivors_id by (by rewrite Hdom).
    apply set_childUIs_id. }
  rewrite Hpr in HL. rewrite deletions_nil in Htr by (by rewrite Hdom).
  apply Layout_noop in HL as (Hres & Hw & ->); [|done].
  destruct (__updateChildUIs classes false w) as [[[[]|e] w2] tr];
    simpl in *; [|done].
  destruct Htl as [a ->]. exists a. by subst.
Qed.

(** Adding an entry while the widget is in step with the host: the call and
    the callback that follows complete, append the new entry under a name
    that had no ui, delete nothing, build one ui, for the new entry, and
    leave the widget in step. *)
Theorem addClass_then_callback cn cv w :
  synced w →
  ∃ i t w' tr,
    addClass cn cv w = (Ret tt, w', tr) ∧
    synced w' ∧
    hostClasses w' = hostClasses w ++ [mkEntry (pName i) cn cv] ∧
    childUIs w !! pName i = None ∧
    childUIs w' = <[pName i := mkChildUI t cn cv]> (childUIs w) ∧
    nextUI w ≤ t ∧
    (∀ h, EvDeleteUI h ∉ tr) ∧
    (∀ k t', EvCreateChildUI k t' ∈ tr ↔ k = pName i ∧ t' = t).
Proof.
  intros Hsync. pose proof Hsync as (Hnd & Hdom & Hag).
  destruct (update_noop (Some (hostClasses w)) w Hdom Hag) as [a Hrun1].
  destruct (newParameterName_fresh (hostClasses w) EmptyString)
    as (i & _ & Heq & Hfree & _).
  set (new := mkEntry (pName i) cn cv).
  set (host' := hostClasses w ++ [new]).
  assert (_setClass None cn cv w
          = (Ret tt, set_hostClasses host' w, [EvFormLayout a] ++ [EvSetClasses host']))
    as Hset.
  { rewrite (setClass_run None cn cv w w [EvFormLayout a]).
    - simpl. by rewrite Heq.
    - by rewrite classesWithout_absent. }
  assert (NoDup (names host')) as Hnd'.
  { unfold host', names. rewrite fmap_app. apply NoDup_app.
    split; [done|]. split; [|apply NoDup_singleton].
    intros k Hk Hk'. apply list_elem_of_singleton in Hk'. by subst. }
  destruct (callback_shows (set_hostClasses host' w) (hostClasses w)) as
    (w' & tr2 & Hrun2 & Hhost2 & Hs2 & Hdel2 & Hcre2 & Hkept2); [done..|].
  simpl in Hhost2, Hdel2, Hcre2, Hkept2.
  assert (shows w' host') as Hs2'.
  { unfold synced in Hs2. by rewrite Hhost2 in Hs2. }
  assert (new ∈ host') as Hnew by (unfold host'; set_solver).
  assert (new ∉ hostClasses w) as Hnewout.
  { intros Hin. apply Hfree. apply list_elem_of_fmap. by exists new. }
  destruct Hs2' as (_ & Hdom' & Hag').
  destruct (Hag' new Hnew) as (ui' & Hui' & [Hcn Hcv]). simpl in Hui', Hcn, Hcv.
  assert (ui' = mkChildUI (topLevelUI ui') cn cv) as Hui'eq.
  { destruct ui'. simpl in *. by subst. }
  assert (∀ k t', EvCreateChildUI k t' ∈ tr2 ↔ k = pName i ∧ t' = topLevelUI ui')
    as Hcre.
  { intros k t'. rewrite Hcre2. split.
    - intros (c0 & Hc0 & Hout & <- & Hreg).
      unfold host' in Hc0. apply elem_of_app in Hc0 as [?|Hc0]; [done|].
      apply list_elem_of_singleton in Hc0 as ->. simpl in *.
      split; [done|]. rewrite Hui' in Hreg. by injection Hreg as ->.
    - intros [-> ->]. exists new. split; [done|]. split; [done|].
      split; [done|]. simpl. by rewrite Hui', Hui'eq at 1. }
  exists i, (topLevelUI ui'), w', (([EvFormLayout a] ++ [EvSetClasses host']) ++ tr2).
  split; [by eapply thenCallback_run|]. split; [done|]. split; [done|].
  split; [by apply (shows_not_held w (hostClasses w))|].
  split; [|split; [|split]].
  - apply map_eq. intros k. destruct (decide (k = pName i)) as [->|Hkn].
    + by rewrite lookup_insert_eq, Hui', Hui'eq at 1.
    + rewrite lookup_insert_ne by done.
      destruct (decide (k ∈ names (hostClasses w))) as [Hin|Hout].
      * apply list_elem_of_fmap in Hin as (c0 & -> & Hc0).
        rewrite Hkept2; [done|done|]. unfold host'. set_solver.
      * rewrite (shows_not_held w (hostClasses w) k) by done.
        apply (not_elem_of_dom (D := gset string)).
        rewrite Hdom'. rewrite elem_of_list_to_set. unfold host', names.
        rewrite fmap_app, elem_of_app. simpl. rewrite list_elem_of_singleton.
        intros [?|?]; done.
  - assert (EvCreateChildUI (pName i) (topLevelUI ui') ∈ tr2) as Hin by (by apply Hcre).
    by pose proof (update_created_bounds None false _ _ _ _ _ _ Hrun2 Hin) as [Hle _].
  - intros h. rewrite !elem_of_app, !list_elem_of_singleton, Hdel2.
    intros [[?|?]|(c0 & ui0 & Hc0 & Hout & _)]; [done|done|].
    apply Hout. unfold host'. set_solver.
  - intros k t'. rewrite !elem_of_app, !list_elem_of_singleton, Hcre.
    split; [|by right]. intros [[?|?]|?]; done.
Qed.

(** Moving an entry while the widget is in step with the host: the call
    commits the reordered list without touching any ui, and the callback
    that follows deletes and builds nothing: the registry is as it was and
    the only host calls are the commit and one layout edit. *)
Theorem moveLayer_then_callback oldIndex newIndex w :
  synced w →
  (- Z.of_nat (length (hostClasses w)) ≤ oldIndex
   < Z.of_nat (length (hostClasses w)))%Z →
  ∃ cs a,
    thenCallback (__moveLayer oldIndex newIndex) w
      = (Ret tt, set_hostClasses cs w, [EvSetClasses cs; EvFormLayout a]) ∧
    cs ≡ₚ hostClasses w ∧
    synced (set_hostClasses cs w).
Proof.
  intros (Hnd & Hdom & Hag) Hi.
  destruct (pyIndex_Some _ _ Hi) as (o & Ho & Hlt).
  destruct (lookup_lt_is_Some_2 _ _ Hlt) as [cl Hcl].
  set (cs := pySliceInsert (delete o (hostClasses w)) newIndex cl).
  assert (cs ≡ₚ hostClasses w) as Hperm.
  { unfold cs. rewrite pySliceInsert_Permutation. symmetry.
    by apply delete_Permutation. }
  assert (__moveLayer oldIndex newIndex w
          = (Ret tt, set_hostClasses cs w, [EvSetClasses cs])) as Hmove.
  { unfold __moveLayer. mrun. by rewrite Ho, Hcl. }
  assert (shows (set_hostClasses cs w) cs) as Hshows.
  { split; [|split]; simpl.
    - unfold names. by rewrite Hperm.
    - rewrite Hdom. apply set_eq. intros k. rewrite !elem_of_list_to_set.
      unfold names. by rewrite Hperm.
    - intros c Hc. apply Hag. by rewrite <- Hperm. }
  destruct (update_noop None (set_hostClasses cs w)) as [a Hcb].
  { by destruct Hshows as (_ & ? & _). }
  { by destruct Hshows as (_ & _ & ?). }
  exists cs, a. split; [|done].
  by apply (thenCallback_run _ _ _ _ _ _ Hmove Hcb).
Qed.

(** ** [_classesSetCallback] from any registry *)

(** Whatever the registry holds (the class list may have been changed from
    outside the widget), when the host's parameter names are distinct the
    callback completes and leaves the widget in step with the host: one ui
    for each entry, of the entry's class, and no other. *)
Theorem classesSetCallback_syncs w :
  NoDup (names (hostClasses w)) →
  ∃ w' tr,
    _classesSetCallback w = (Ret tt, w', tr) ∧
    hostClasses w' = hostClasses w ∧
    synced w'.
Proof.
  intros Hnd.
  destruct (update_completes None false w) as (w' & tr & Hrun); [done|].
  pose proof (update_host _ _ _ _ _ _ Hrun) as (Hhost & _).
  exists w', tr. split; [done|]. split; [done|].
  unfold synced, shows. rewrite Hhost. split; [done|].
  split; [by apply (update_keys _ _ _ _ _ Hrun)|].
  by apply (update_agrees _ _ _ _ _ Hrun).
Qed.

(** ** Where [__moveLayer] puts the entry *)

Lemma pySliceInsert_position {A} (l : list A) (i : nat) (x : A) :
  i ≤ length l →
  pySliceInsert l (Z.of_nat i) x !! i = Some x ∧
  delete i (pySliceInsert l (Z.of_nat i) x) = l ∧
  length (pySliceInsert l (Z.of_nat i) x) = S (length l).
Proof.
  intros Hi. unfold pySliceInsert, pySliceBound. cbv zeta.
  rewrite bool_decide_eq_false_2 by lia.
  replace (Z.to_nat (Z.min (Z.of_nat i) (Z.of_nat (length l)))) with i by lia.
  assert (length (take i l) = i) as Hlen by (rewrite length_take; lia).
  split; [|split].
  - rewrite lookup_app_r by lia. by rewrite Hlen, Nat.sub_diag.
  - simpl. rewrite <- Hlen at 1. rewrite delete_middle. apply take_drop.
  - rewrite length_app. simpl. rewrite length_take, length_drop. lia.
Qed.

Lemma moveLayer_run_nat (old new : nat) cl w :
  hostClasses w !! old = Some cl →
  let cs := pySliceInsert (delete old (hostClasses w)) (Z.of_nat new) cl in
  __moveLayer (Z.of_nat old) (Z.of_nat new) w
  = (Ret tt, set_hostClasses cs w, [EvSetClasses cs]).
Proof.
  intros Hcl cs. unfold __moveLayer. mrun.
  assert (pyIndex (hostClasses w) (Z.of_nat old) = Some old) as ->.
  { unfold pyIndex. cbv zeta. apply lookup_lt_Some in Hcl.
    rewrite bool_decide_eq_true_2 by lia. by rewrite Nat2Z.id. }
  by rewrite Hcl.
Qed.

(** For two positions of the list, [__moveLayer] commits the list in which
    the entry that was at [oldIndex] is at [newIndex] and the other entries
    follow in the order they had. *)
Theorem moveLayer_places (oldIndex newIndex : nat) w :
  oldIndex < length (hostClasses w) →
  newIndex < length (hostClasses w) →
  ∃ cs cl,
    hostClasses w !! oldIndex = Some cl ∧
    __moveLayer (Z.of_nat oldIndex) (Z.of_nat newIndex) w
      = (Ret tt, set_hostClasses cs w, [EvSetClasses cs]) ∧
    cs !! newIndex = Some cl ∧
    delete newIndex cs = delete oldIndex (hostClasses w) ∧
    length cs = length (hostClasses w).
Proof.
  intros Hold Hnew.
  destruct (lookup_lt_is_Some_2 _ _ Hold) as [cl Hcl].
  exists (pySliceInsert (delete oldIndex (hostClasses w)) (Z.of_nat newIndex) cl), cl.
  split; [done|]. split; [by apply moveLayer_run_nat|].
  assert (S (length (delete oldIndex (hostClasses w))) = length (hostClasses w))
    as Hlen.
  { rewrite length_delete by (by eexists). lia. }
  destruct (pySliceInsert_position (delete oldIndex (hostClasses w)) newIndex cl)
    as (? & ? & ?); [lia|].
  split; [done|]. split; [done|]. lia.
Qed.

(** Every active entry of the row's "Move" menu moves the row's entry where
    its label says: to the top, one up, one down or to the bottom, each a
    position of the list other than the row's own; the other entries keep
    their order. *)
Theorem layerMenu_moves (layerIndex : nat) item w :
  layerIndex < length (hostClasses w) →
  item ∈ moveItems (Z.of_nat layerIndex) (Z.of_nat (length (hostClasses w))) →
  moveActive item = true →
  ∃ target cs cl,
    moveNew item = Z.of_nat target ∧
    target ≠ layerIndex ∧
    target < length (hostClasses w) ∧
    hostClasses w !! layerIndex = Some cl ∧
    __moveLayer (moveOld item) (moveNew item) w
      = (Ret tt, set_hostClasses cs w, [EvSetClasses cs]) ∧
    cs !! target = Some cl ∧
    delete target cs = delete layerIndex (hostClasses w).
Proof.
  intros Hlt Hitem Hact.
  destruct (lookup_lt_is_Some_2 _ _ Hlt) as [cl Hcl].
  assert (∃ target, moveOld item = Z.of_nat layerIndex ∧
                    moveNew item = Z.of_nat target ∧
                    target ≠ layerIndex ∧ target < length (hostClasses w))
    as (target & Hold & Hnew & Hne & Htl).
  { unfold moveItems in Hitem.
    repeat (apply elem_of_cons in Hitem as [->|Hitem]);
      [..|by apply elem_of_nil in Hitem];
      simpl in *; apply bool_decide_eq_true in Hact.
    - exists 0. repeat split; lia.
    - exists (layerIndex - 1). repeat split; lia.
    - exists (layerIndex + 1). repeat split; lia.
    - exists (length (hostClasses w) - 1). repeat split; lia. }
  exists target, (pySliceInsert (delete layerIndex (hostClasses w)) (Z.of_nat target) cl), cl.
  rewrite Hold, Hnew.
  assert (S (length (delete layerIndex (hostClasses w))) = length (hostClasses w))
    as Hlen.
  { rewrite length_delete by (by eexists). lia. }
  destruct (pySliceInsert_position (delete layerIndex (hostClasses w)) target cl)
    as (? & ? & ?); [lia|].
  repeat split; try done. by apply moveLayer_run_nat.
Qed.

(** An [oldIndex] that denotes no position of the list makes [__moveLayer]
    raise [IndexError] before anything is committed. *)
Theorem moveLayer_index_error oldIndex newIndex w :
  (oldIndex < - Z.of_nat (length (hostClasses w)) ∨
   Z.of_nat (length (hostClasses w)) ≤ oldIndex)%Z →
  __moveLayer oldIndex newIndex w = (Raise IndexError, w, []).
Proof.
  intros Hout. unfold __moveLayer. mrun.
  unfold pyIndex. cbv zeta. by rewrite !bool_decide_eq_false_2 by lia.
Qed.

(** ** The layout edit of [__updateChildUIs] *)

(** The attachments a round adds, and the ui it leaves registered. *)
Lemma layoutChild_attach i c prev a w ui' a' w' tr :
  layoutChild i c (prev, a) w = (Ret (ui', a'), w', tr) →
  i = 0 ∨ is_Some prev →
  ∃ ui, ui' = Some ui ∧
    childUIs w' !! entryName c = Some ui ∧
    attachNone a' = attachNone a ++ [(ChildControl (topLevelUI ui), Bottom)] ∧
    attachForm a' = attachForm a
      ++ [(ChildControl (topLevelUI ui), Left, 0%Z);
          (ChildControl (topLevelUI ui), Right, 0%Z)]
      ++ match i with
         | O => [(ChildControl (topLevelUI ui), Top, 5%Z)]
         | S _ => []
         end ∧
    attachControl a' = attachControl a
      ++ match i, prev with
         | S _, Some p =>
             [(ChildControl (topLevelUI ui), Top, 0%Z, ChildControl (topLevelUI p))]
         | _, _ => []
         end.
Proof.
  intros Hrun Hprev. unfold layoutChild in Hrun. revert Hrun. mrun.
  destruct (childUIs w !! entryName c) as [ui|] eqn:Hui.
  - destruct (bool_decide (className ui ≠ entryClass c)
              || bool_decide (classVersion ui ≠ entryVersion c)); mrun.
    + destruct (bool_decide (entryName c ∈ names (hostClasses w))); mrun; [|done].
      destruct Hprev as [->|[p ->]]; [|destruct i]; simpl;
        intros [= <- <- <- _]; eexists; (split; [done|]);
        simpl; rewrite lookup_insert_eq, ?app_nil_r, <- ?app_assoc; done.
    + destruct Hprev as [->|[p ->]]; [|destruct i]; simpl;
        intros [= <- <- <- _]; eexists; (split; [done|]);
        simpl; rewrite ?app_nil_r, <- ?app_assoc; done.
  - destruct (bool_decide (entryName c ∈ names (hostClasses w))); mrun; [|done].
    destruct Hprev as [->|[p ->]]; [|destruct i]; simpl;
      intros [= <- <- <- _]; eexists; (split; [done|]);
      simpl; rewrite lookup_insert_eq, ?app_nil_r, <- ?app_assoc; done.
Qed.

Lemma update_unfold classes scratch w :
  let cs := effective classes w in
  __updateChildUIs classes scratch w =
  match layoutChildren 0 cs
          (None, mkAttachments
             [(AddButton, Left, (20 + labelIndent (hierarchyDepth w + 1))%Z);
              (AddButton, Bottom, 5%Z)] [] [])
          (pruned cs scratch w) with
  | (Ret (prev, a), w2, t2) =>
      (Ret tt, w2,
       deletions (list_to_set (names cs)) scratch (map_to_list (childUIs w))
       ++ t2 ++ [EvFormLayout
          match prev with
          | Some p => mkAttachments (attachForm a)
               (attachControl a ++ [(AddButton, Top, 5%Z, ChildControl (topLevelUI p))])
               (attachNone a)
          | None => mkAttachments (attachForm a ++ [(AddButton, Top, 5%Z)])
               (attachControl a) (attachNone a)
          end])
  | (Raise e, w2, t2) =>
      (Raise e, w2,
       deletions (list_to_set (names cs)) scratch (map_to_list (childUIs w)) ++ t2)
  end.
Proof.
  intros cs. unfold __updateChildUIs, cs, effective.
  destruct classes as [cs0|]; mrun; simpl;
    rewrite deletePhase_run; simpl; unfold pruned;
    match goal with |- context [layoutChildren 0 ?l ?s ?w1] =>
      destruct (layoutChildren 0 l s w1) as [[[[p a]|e] w2] t2] end;
    simpl; try destruct p; by rewrite ?app_nil_r.
Qed.

(** The rows the second loop adds from round [i] on, for the child uis [hs]
    it meets, hanging the first below [prev]. *)
Lemma layoutChildren_column cs : ∀ i prev a w prev' a' w' tr,
  layoutChildren i cs (prev, a) w = (Ret (prev', a'), w', tr) →
  (i = 0 ∧ prev = None) ∨ (0 < i ∧ is_Some prev) →
  NoDup (names cs) →
  ∃ hs,
    Forall2 (λ c t, ∃ ui, childUIs w' !! entryName c = Some ui ∧ topLevelUI ui = t)
      cs hs ∧
    let full := match prev with Some p => [topLevelUI p] | None => [] end ++ hs in
    topLevelUI <$> prev' = last full ∧
    attachNone a' = attachNone a ++ columnNone hs ∧
    attachForm a' = attachForm a
      ++ concat (imap (λ j t,
           [(ChildControl t, Left, 0%Z); (ChildControl t, Right, 0%Z)]
           ++ match i + j with
              | O => [(ChildControl t, Top, 5%Z)]
              | S _ => []
              end) hs) ∧
    attachControl a' = attachControl a
      ++ zip_with (λ t above, (ChildControl t, Top, 0%Z, ChildControl above))
           (tail full) full.
Proof.
  induction cs as [|c cs IH]; intros i prev a w prev' a' w' tr Hrun Hprev Hnd.
  - injection Hrun as <- <- <- <-. exists []. split; [constructor|].
    simpl. rewrite !app_nil_r. split; [|split; [done|split; [done|]]].
    + by destruct Hprev as [[_ ->]|[_ [p ->]]].
    + destruct Hprev as [[_ ->]|[_ [p ->]]]; simpl; by rewrite app_nil_r.
  - apply NoDup_names_cons in Hnd as [Hnd Hne].
    rewrite layoutChildren_cons in Hrun.
    assert (i = 0 ∨ is_Some prev) as Hprev' by (destruct Hprev; [left|right]; tauto).
    destruct (layoutChild i c (prev, a) w) as [[[[ui1 a1]|e] w1] t1] eqn:Hstep;
      [|done].
    destruct (layoutChild_attach _ _ _ _ _ _ _ _ _ Hstep Hprev')
      as (ui & -> & Hreg & Hnone & Hform & Hctl).
    destruct (layoutChildren (S i) cs (Some ui, a1) w1) as [[[[p2 a2]|e] w2] t2]
      eqn:Hrest; [|done].
    injection Hrun as <- <- <- <-.
    destruct (IH _ _ _ _ _ _ _ _ Hrest) as (hs & Hall & Hlast & Hnone' & Hform' & Hctl');
      [right; split; [lia|by eexists]|done|].
    exists (topLevelUI ui :: hs). split.
    { constructor; [|done]. exists ui. split; [|done].
      pose proof (layoutChildren_Layout cs (S i) (Some ui) a1 w1
                    (or_intror (mk_is_Some _ _ eq_refl))) as HL.
      rewrite Hrest in HL. simpl in HL.
      rewrite (Layout_frame _ _ _ _ _ (entryName c) HL); [done|].
      intros Hin. apply list_elem_of_fmap in Hin as (c' & Heq & Hc').
      by apply (Hne c'). }
    cbv zeta in *. simpl in Hlast, Hctl'.
    split; [|split; [|split]].
    + rewrite Hlast. destruct Hprev as [[_ ->]|[_ [p ->]]]; simpl; [done|].
      by destruct hs.
    + rewrite Hnone', Hnone. unfold columnNone. simpl. by rewrite <- app_assoc.
    + rewrite Hform', Hform. simpl. rewrite Nat.add_0_r, <- !app_assoc. simpl.
      do 3 f_equal. destruct i; simpl; (do 2 f_equal);
        apply imap_ext; intros j t _; simpl; by rewrite Nat.add_succ_r.
    + rewrite Hctl', Hctl. rewrite <- app_assoc. f_equal.
      destruct Hprev as [[-> ->]|[Hi [p ->]]]; simpl; [done|].
      destruct i; [lia|done].
Qed.

(** When a reconciliation over distinct names completes, the layout edit it
    ends with stacks the child uis the registry now holds in the order of
    the class list: the first at the top of the form, each next one below
    the one before, the add button below the last (at the top when the list
    is empty). *)
Theorem updateChildUIs_layout classes startFromScratch w w' tr :
  __updateChildUIs classes startFromScratch w = (Ret tt, w', tr) →
  NoDup (names (effective classes w)) →
  ∃ hs,
    Forall2 (λ c t, ∃ ui, childUIs w' !! entryName c = Some ui ∧ topLevelUI ui = t)
      (effective classes w) hs ∧
    last tr = Some (EvFormLayout (column (labelIndent (hierarchyDepth w + 1)) hs)).
Proof.
  intros Hrun Hnd. rewrite update_unfold in Hrun. cbv zeta in Hrun.
  match type of Hrun with context [layoutChildren 0 ?l (None, ?a0) ?w1] =>
    destruct (layoutChildren 0 l (None, a0) w1) as [[[[prev a]|e] w2] t2] eqn:Hloop
  end; [|done].
  injection Hrun as <- <-.
  destruct (layoutChildren_column _ _ _ _ _ _ _ _ _ Hloop) as
    (hs & Hall & Hlast & Hnone & Hform & Hctl); [by left|done|].
  cbv zeta in *. simpl in Hlast, Hnone, Hform, Hctl.
  exists hs. split; [done|].
  rewrite !app_assoc, last_snoc. do 2 f_equal.
  unfold column, columnForm, columnControl.
  destruct prev as [p|]; simpl in Hlast.
  - rewrite <- Hlast. destruct hs as [|t hs]; [done|].
    rewrite Hform, Hnone, Hctl. simpl. by rewrite app_nil_r.
  - destruct hs as [|t hs]; [|by destruct (last (t :: hs)) eqn:E;
      [|apply last_None in E]].
    rewrite Hform, Hnone, Hctl. done.
Qed.

(** ** The hierarchy depth of a new [ClassVectorParameterUI] *)

(** Without a [["UI"]["collapsable"]] entry the widget is collapsable and its
    depth is one more than the keyword's, 0 when there is no keyword.  When
    the entry says it is not collapsable the keyword is taken as it is, and
    when there is none the constructor raises [KeyError]. *)
Theorem initHierarchyDepth_cases userData kw w :
  (lacks userData "collapsable" →
     initHierarchyDepth userData kw w
     = (Ret (default (-1) (kw !! "hierarchyDepth") + 1)%Z, w, [])) ∧
  (∀ members ui,
     userData = CompoundObject members →
     members !! "UI" = Some (CompoundObject ui) →
     ui !! "collapsable" = Some (BoolData false) →
     initHierarchyDepth userData kw w
     = match kw !! "hierarchyDepth" with
       | Some depth => (Ret depth, w, [])
       | None => (Raise (KeyError "hierarchyDepth"), w, [])
       end).
Proof.
  split.
  - intros [k Hk]%(uiValue_lacks _ _ w).
    unfold initHierarchyDepth. rewrite bind_run.
    unfold collapsable, ignoringKeyError. rewrite Hk.
    unfold kwHierarchyDepth, initKw. simpl. by rewrite lookup_insert_eq.
  - intros members ui -> Hui Hc.
    unfold initHierarchyDepth, collapsable, ignoringKeyError, uiValue, getItem.
    mrun. rewrite Hui, Hc. simpl.
    unfold kwHierarchyDepth, initKw. simpl.
    by destruct (kw !! "hierarchyDepth").
Qed.

(** ** The icon of a row *)

Lemma iconFrom_readable sources w :
  Forall readable sources →
  iconFrom sources w
  = (Ret (default (VString "out_displayLayer") (head (omap iconOf sources))), w, []).
Proof.
  induction sources as [|data rest IH]; intros Hall; [done|].
  apply Forall_cons in Hall as [Hr Hall]. specialize (IH Hall).
  cbn [iconFrom omap list_omap]. unfold contains, getItem, value. mrun.
  destruct data as [| | |members]; try done. simpl in Hr. simpl.
  destruct (members !! "UI") as [[| | |ui]|] eqn:Hui; try done; simpl.
  - destruct (ui !! "icon") as [[[]|s|z|]|] eqn:Hicon; try done; simpl;
      try (destruct (bool_decide (s ≠ EmptyString)); simpl);
      try (destruct (bool_decide (z ≠ 0%Z)); simpl);
      rewrite ?IH; done.
  - by rewrite IH.
Qed.

(** For sources it can read, [__classIconName] raises nothing and returns
    the first true icon in the order blind data, user data, skipping a
    source without [["UI"]["icon"]] or with an empty one, and
    ["out_displayLayer"] when no source names an icon. *)
Theorem classIconName_first blindData userData w :
  Forall readable (option_list blindData ++ option_list userData) →
  __classIconName blindData userData w
  = (Ret (default (VString "out_displayLayer")
            (head (omap iconOf (option_list blindData ++ option_list userData)))),
     w, []).
Proof. apply iconFrom_readable. Qed.

(** ** Invariants of the mutations *)

(** The parameter names of the host's list stay distinct through every list
    the widget commits: by [_removeClass], by [_setClass] (a replaced entry
    keeps its name, a new one gets a fresh name) and by [__moveLayer]. *)
Theorem commits_keep_names_distinct w :
  NoDup (names (hostClasses w)) →
  (∀ pn r w' tr, _removeClass pn w = (r, w', tr) → NoDup (names (hostClasses w'))) ∧
  (∀ pn cn cv r w' tr,
     _setClass pn cn cv w = (r, w', tr) → NoDup (names (hostClasses w'))) ∧
  (∀ oldIndex newIndex r w' tr,
     __moveLayer oldIndex newIndex w = (r, w', tr) → NoDup (names (hostClasses w'))).
Proof.
  intros Hnd. split; [|split].
  - intros pn r w' tr Hrun. by eapply removeClass_NoDup.
  - intros pn cn cv r w' tr Hrun. destruct r as [[]|e]; [by eapply setClass_NoDup|].
    destruct (preUpdate_completes pn w) as (w1 & tr1 & Hup).
    rewrite (setClass_run _ _ _ _ _ _ Hup) in Hrun.
    destruct (truthy pn); [destruct (findParameter _ _)|]; try done.
    injection Hrun as _ <- _. by rewrite (proj1 (update_host _ _ _ _ _ _ Hup)).
  - intros oldIndex newIndex r w' tr Hrun.
    destruct r as [[]|e]; [by eapply moveLayer_NoDup|].
    revert Hrun. unfold __moveLayer. mrun.
    destruct (pyIndex _ _); [destruct (_ !! _)|]; intros Hrun; by simplify_eq.
Qed.

(** No two registered uis ever share a layout, and every registered layout
    is one the host has handed out: this holds for the empty widget and is
    kept by reconciliation and by every mutation, whether it completes or
    raises. *)
Theorem uis_stay_distinct w :
  wfUIs w →
  (∀ classes scratch r w' tr,
     __updateChildUIs classes scratch w = (r, w', tr) → wfUIs w') ∧
  (∀ pn r w' tr, _removeClass pn w = (r, w', tr) → wfUIs w') ∧
  (∀ pn cn cv r w' tr, _setClass pn cn cv w = (r, w', tr) → wfUIs w') ∧
  (∀ oldIndex newIndex r w' tr,
     __moveLayer oldIndex newIndex w = (r, w', tr) → wfUIs w').
Proof.
  intros Hwf. split; [|split; [|split]].
  - intros. by eapply update_wf.
  - intros. by eapply removeClass_wf.
  - intros. by eapply setClass_wf.
  - intros oldIndex newIndex r w' tr. unfold __moveLayer. mrun.
    destruct (pyIndex _ _); [destruct (_ !! _)|]; intros Hrun; by simplify_eq.
Qed.

End ClassVectorParameterUI.

(** * The statements at sample inputs *)

Lemma sampleWorld_wf : wfUIs sampleWorld.
Proof.
  split.
  - intros k ui Hk. apply elem_of_map_to_list in Hk.
    set (l := map_to_list (childUIs sampleWorld)) in *. vm_compute in l. subst l.
    repeat (apply elem_of_cons in Hk as [[= -> ->]|Hk]; [simpl; lia|]).
    by apply elem_of_nil in Hk.
  - intros k1 k2 ui1 ui2 H1 H2.
    apply elem_of_map_to_list in H1. apply elem_of_map_to_list in H2.
    set (l := map_to_list (childUIs sampleWorld)) in *. vm_compute in l. subst l.
    repeat (apply elem_of_cons in H1 as [[= -> ->]|H1]);
      try (by apply elem_of_nil in H1);
      repeat (apply elem_of_cons in H2 as [[= -> ->]|H2]);
      try (by apply elem_of_nil in H2); simpl; done.
Qed.

(** Reconciling the sample world against the sample list leaves uis for
    exactly [p0] and [p1]. *)
Lemma updateChildUIs_keys_witness :
  dom (childUIs (__updateChildUIs sampleIndent (Some sampleClasses) false sampleWorld).1.2)
  = list_to_set (names (effective (Some sampleClasses) sampleWorld)).
Proof.
  apply (updateChildUIs_keys sampleIndent (Some sampleClasses) false sampleWorld _
           (__updateChildUIs sampleIndent (Some sampleClasses) false sampleWorld).2).
  vm_compute. reflexivity.
Defined.

(** In that run the ui of [p0] is reused, while the ui of [p1], whose version
    changed, is deleted and rebuilt. *)
Lemma updateChildUIs_reuse_witness :
  let run := __updateChildUIs sampleIndent (Some sampleClasses) false sampleWorld in
  reused "p0" (mkChildUI 0 "blur" 1) run.1.2 run.2 ∧
  EvDeleteUI 1 ∈ run.2 ∧
  rebuilt "p1" sampleClasses 4 run.1.2 run.2.
Proof.
  intros run.
  assert (__updateChildUIs sampleIndent (Some sampleClasses) false sampleWorld
          = (Ret tt, run.1.2, run.2)) as Hrun by (vm_compute; reflexivity).
  split.
  - apply (proj1 (updateChildUIs_reuse sampleIndent _ _ _ _ _ "p0" _
                    Hrun sampleWorld_wf eq_refl)).
    split; [done|]. split; [vm_compute; set_solver|].
    intros c Hc Hn. unfold effective, sampleClasses in Hc. simpl in Hc.
    apply elem_of_cons in Hc as [->|Hc]; [done|].
    apply list_elem_of_singleton in Hc as ->. done.
  - destruct (proj2 (updateChildUIs_reuse sampleIndent _ _ _ _ _ "p1"
                       (mkChildUI 1 "grade" 1) Hrun sampleWorld_wf eq_refl))
      as (Hdel & Hre & _).
    + intros (_ & _ & Hsame).
      destruct (Hsame (mkEntry "p1" "grade" 2)) as [_ Hv]; [set_solver|done|done].
    + split; [exact Hdel|]. apply Hre. vm_compute. set_solver.
Defined.

(** Reconciling once more changes nothing. *)
Lemma updateChildUIs_idempotent_witness :
  ∃ a,
    __updateChildUIs sampleIndent (Some sampleClasses) false
      (__updateChildUIs sampleIndent (Some sampleClasses) false sampleWorld).1.2
    = (Ret tt,
       (__updateChildUIs sampleIndent (Some sampleClasses) false sampleWorld).1.2,
       [EvFormLayout a]).
Proof.
  apply (updateChildUIs_idempotent sampleIndent (Some sampleClasses) false sampleWorld _
           (__updateChildUIs sampleIndent (Some sampleClasses) false sampleWorld).2).
  - vm_compute. reflexivity.
  - refine (bool_decide_unpack _ _). vm_compute. exact I.
Defined.

(** Moving the first of the three sample classes to the bottom. *)
Lemma moveLayer_permutation_witness :
  ∃ cs,
    __moveLayer 0 2 sampleWorld = (Ret tt, set_hostClasses cs sampleWorld, [EvSetClasses cs]) ∧
    cs ≡ₚ hostClasses sampleWorld.
Proof. apply moveLayer_permutation. simpl. lia. Defined.

(** A change of the plug of [p2.kind]: the lookup for [p1.mode] fails and is
    passed over, the label of the third control is still set. *)
Lemma attributeChanged_skips_witness :
  __attributeChanged 8 sampleBindings 8 12 sampleWorld
  = (Ret tt, sampleWorld, [EvSetLabel 22 "perlin"]).
Proof.
  etrans; [apply attributeChanged_skips; reflexivity|].
  vm_compute. reflexivity.
Defined.

(** Asking for a new version of [p9], which the host no longer holds: the
    stale ui 3 is deleted, then the call raises. *)
Lemma setClass_not_present_witness :
  ∃ w' tr,
    _setClass sampleIndent (Some "p9") "matte" 2 sampleWorld
      = (Raise (RuntimeError (notPresent "p9")), w', tr) ∧
    Forall (λ e, ¬ isSetClasses e) tr ∧
    hostClasses w' = hostClasses sampleWorld ∧
    __updateChildUIs sampleIndent (Some (hostClasses sampleWorld)) false sampleWorld
      = (Ret tt, w', tr) ∧
    childUIs w' !! "p9" = None ∧
    (∀ ui, childUIs sampleWorld !! "p9" = Some ui → EvDeleteUI (topLevelUI ui) ∈ tr).
Proof.
  apply setClass_not_present.
  - done.
  - refine (bool_decide_unpack _ _). vm_compute. exact I.
Defined.

(** Replacing the class of [p1] in the sample world: at the commit the
    registry has no ui for [p1]. *)
Lemma preUpdate_registry_witness :
  let run := _setClass sampleIndent (Some "p1") "grade" 2 sampleWorld in
  (∃ i, i < length (hostClasses sampleWorld) ∧
        hostClasses run.1.2 = <[i := mkEntry "p1" "grade" 2]> (hostClasses sampleWorld)) ∧
  "p1" ∈ names (hostClasses run.1.2) ∧
  dom (childUIs run.1.2) = list_to_set (names (hostClasses run.1.2)) ∖ {["p1"]}.
Proof.
  intros run.
  apply (proj1 (proj2 (proj2 (preUpdate_registry sampleIndent)))
           "p1" "grade" 2%Z sampleWorld run.1.2 run.2).
  - done.
  - vm_compute. reflexivity.
Defined.

(** C4 as stated fails: after the pre-update and the commit of an addition to
    the empty vector the committed list holds [p0] and the registry holds
    nothing; after those of a replacement of [p1] the committed list still
    holds [p1] and the registry does not. *)
Lemma preUpdate_registry_counterexample :
  (∃ w' a,
     _setClass sampleIndent None "blur" 1 emptyWorld
       = (Ret tt, w', [EvFormLayout a; EvSetClasses [mkEntry "p0" "blur" 1]]) ∧
     hostClasses w' = [mkEntry "p0" "blur" 1] ∧
     childUIs w' = ∅ ∧
     dom (childUIs w') ≠ list_to_set (names (hostClasses w'))) ∧
  (∃ w' tr,
     _setClass sampleIndent (Some "p1") "grade" 2 sampleWorld = (Ret tt, w', tr) ∧
     "p1" ∈ names (hostClasses w') ∧
     childUIs w' !! "p1" = None ∧
     dom (childUIs w') ≠ list_to_set (names (hostClasses w'))).
Proof.
  split.
  - eexists _, _. split; [vm_compute; reflexivity|].
    split; [done|]. split; [done|].
    intros Heq.
    apply (f_equal (λ X : gset string, bool_decide ("p0" ∈ X))) in Heq.
    vm_compute in Heq. done.
  - eexists _, _. split; [vm_compute; reflexivity|].
    split; [set_solver|]. split; [by vm_compute|].
    intros Heq.
    apply (f_equal (λ X : gset string, bool_decide ("p1" ∈ X))) in Heq.
    vm_compute in Heq. done.
Qed.

(** User data without a ["UI"] member. *)
Lemma userData_defaults_witness :
  collapsable (CompoundObject ∅) emptyWorld = (Ret (VBool true), emptyWorld, []) ∧
  classNameFilter (CompoundObject {[ "UI" := CompoundObject ∅ ]}) emptyWorld
    = (Ret (VString "*"), emptyWorld, []) ∧
  forHeader (CompoundObject {[ "UI" := CompoundObject {[ "icon" := StringData "blur" ]} ]})
      "classVectorParameterHeader" emptyWorld
    = (Ret (VBool false), emptyWorld, []).
Proof.
  split; [|split].
  - apply (proj1 (userData_defaults (CompoundObject ∅) emptyWorld)). exact I.
  - apply (proj1 (proj2 (userData_defaults _ emptyWorld))). reflexivity.
  - apply (proj2 (proj2 (proj2 (userData_defaults _ emptyWorld)))). reflexivity.
Defined.


(** * The further properties at sample inputs *)

Lemma syncedWorld_synced : synced syncedWorld.
Proof.
  split; [|split].
  - refine (bool_decide_unpack _ _). vm_compute. exact I.
  - apply set_eq. intros k. rewrite elem_of_dom, elem_of_list_to_set. simpl.
    rewrite !elem_of_cons, elem_of_nil.
    split.
    + intros [ui Hui].
      destruct (decide (k = "p0")) as [->|?]; [tauto|].
      destruct (decide (k = "p1")) as [->|?]; [tauto|].
      destruct (decide (k = "p2")) as [->|?]; [tauto|].
      exfalso. simpl in Hui. by simplify_map_eq.
    + intros [->|[->|[->|[]]]]; by eexists.
  - intros c Hc. simpl in Hc.
    repeat (apply elem_of_cons in Hc as [->|Hc]); [..|by apply elem_of_nil in Hc];
      eexists; (split; [reflexivity|done]).
Qed.


Lemma updateChildUIs_reads_host_witness :
  let run := __updateChildUIs sampleIndent (Some sampleClasses) false sampleWorld in
  hostClasses run.1.2 = hostClasses sampleWorld ∧
  parameterPlugs run.1.2 = parameterPlugs sampleWorld ∧
  hierarchyDepth run.1.2 = hierarchyDepth sampleWorld ∧
  nextUI sampleWorld ≤ nextUI run.1.2 ∧
  Forall (λ e, ¬ isSetClasses e) run.2.
Proof.
  intros run.
  apply (updateChildUIs_reads_host sampleIndent (Some sampleClasses) false sampleWorld
           run.1.1).
  vm_compute. reflexivity.
Defined.

(** Starting from scratch on the sample world: all four uis go, three new
    ones come. *)
Lemma updateChildUIs_from_scratch_witness :
  let run := __updateChildUIs sampleIndent None true sampleWorld in
  (∀ n ui, childUIs sampleWorld !! n = Some ui → EvDeleteUI (topLevelUI ui) ∈ run.2) ∧
  (∀ n ui, childUIs run.1.2 !! n = Some ui →
     nextUI sampleWorld ≤ topLevelUI ui < nextUI run.1.2 ∧
     EvCreateChildUI n (topLevelUI ui) ∈ run.2).
Proof.
  intros run. apply (updateChildUIs_from_scratch sampleIndent None sampleWorld).
  vm_compute. reflexivity.
Defined.

Lemma updateChildUIs_diff_witness :
  let run := __updateChildUIs sampleIndent (Some sampleClasses) false sampleWorld in
  childUIs run.1.2 !! "p0" = Some (mkChildUI 0 "blur" 1) ∧
  EvDeleteUI 1 ∈ run.2.
Proof.
  intros run.
  destruct (updateChildUIs_diff sampleIndent (Some sampleClasses) false sampleWorld
              run.1.2 run.2) as (Hdel & _ & Hkept).
  - vm_compute. reflexivity.
  - refine (bool_decide_unpack _ _). vm_compute. exact I.
  - split.
    + apply Hkept; [reflexivity|]. split; [done|].
      exists (mkEntry "p0" "blur" 1). split; [left|done].
    + apply Hdel. exists "p1", (mkChildUI 1 "grade" 1).
      split; [reflexivity|]. split; [done|].
      intros (_ & c & Hc & Hn & _ & Hv). simpl in Hc.
      apply elem_of_cons in Hc as [->|Hc]; [done|].
      apply list_elem_of_singleton in Hc as ->. done.
Defined.

Lemma removeClass_then_callback_witness :
  ∃ w' tr,
    thenCallback sampleIndent (_removeClass sampleIndent (Some "p1")) syncedWorld
      = (Ret tt, w', tr) ∧
    synced w' ∧
    hostClasses w' = classesWithout (Some "p1") (hostClasses syncedWorld) ∧
    childUIs w' = delete "p1" (childUIs syncedWorld) ∧
    (∀ h, EvDeleteUI h ∈ tr ↔
          ∃ ui, childUIs syncedWorld !! "p1" = Some ui ∧ topLevelUI ui = h) ∧
    (∀ k t, EvCreateChildUI k t ∉ tr).
Proof. apply removeClass_then_callback, syncedWorld_synced. Defined.

(** Choosing for [p1] the class and version it already has still rebuilds
    its ui. *)
Lemma setClass_then_callback_witness :
  ∃ i c ui t w' tr,
    hostClasses syncedWorld !! i = Some c ∧ entryName c = "p1" ∧
    childUIs syncedWorld !! "p1" = Some ui ∧
    thenCallback sampleIndent (_setClass sampleIndent (Some "p1") "grade" 1) syncedWorld
      = (Ret tt, w', tr) ∧
    synced w' ∧
    hostClasses w' = <[i := mkEntry "p1" "grade" 1]> (hostClasses syncedWorld) ∧
    childUIs w' = <["p1" := mkChildUI t "grade" 1]> (childUIs syncedWorld) ∧
    nextUI syncedWorld ≤ t ∧
    (∀ h, EvDeleteUI h ∈ tr ↔ h = topLevelUI ui) ∧
    (∀ k t', EvCreateChildUI k t' ∈ tr ↔ k = "p1" ∧ t' = t).
Proof.
  apply setClass_then_callback.
  - apply syncedWorld_synced.
  - done.
  - refine (bool_decide_unpack _ _). vm_compute. exact I.
Defined.

Lemma addClass_then_callback_witness :
  ∃ i t w' tr,
    addClass sampleIndent "glow" 3 syncedWorld = (Ret tt, w', tr) ∧
    synced w' ∧
    hostClasses w' = hostClasses syncedWorld ++ [mkEntry (pName i) "glow" 3] ∧
    childUIs syncedWorld !! pName i = None ∧
    childUIs w' = <[pName i := mkChildUI t "glow" 3]> (childUIs syncedWorld) ∧
    nextUI syncedWorld ≤ t ∧
    (∀ h, EvDeleteUI h ∉ tr) ∧
    (∀ k t', EvCreateChildUI k t' ∈ tr ↔ k = pName i ∧ t' = t).
Proof. apply addClass_then_callback, syncedWorld_synced. Defined.

Lemma moveLayer_then_callback_witness :
  ∃ cs a,
    thenCallback sampleIndent (__moveLayer 2 0) syncedWorld
      = (Ret tt, set_hostClasses cs syncedWorld, [EvSetClasses cs; EvFormLayout a]) ∧
    cs ≡ₚ hostClasses syncedWorld ∧
    synced (set_hostClasses cs syncedWorld).
Proof.
  apply moveLayer_then_callback.
  - apply syncedWorld_synced.
  - simpl. lia.
Defined.

(** The callback on the sample world, whose registry holds a stale ui. *)
Lemma classesSetCallback_syncs_witness :
  ∃ w' tr,
    _classesSetCallback sampleIndent sampleWorld = (Ret tt, w', tr) ∧
    hostClasses w' = hostClasses sampleWorld ∧
    synced w'.
Proof.
  apply classesSetCallback_syncs.
  refine (bool_decide_unpack _ _). vm_compute. exact I.
Defined.

Lemma moveLayer_places_witness :
  ∃ cs cl,
    hostClasses sampleWorld !! 0 = Some cl ∧
    __moveLayer (Z.of_nat 0) (Z.of_nat 2) sampleWorld
      = (Ret tt, set_hostClasses cs sampleWorld, [EvSetClasses cs]) ∧
    cs !! 2 = Some cl ∧
    delete 2 cs = delete 0 (hostClasses sampleWorld) ∧
    length cs = length (hostClasses sampleWorld).
Proof. apply moveLayer_places; simpl; lia. Defined.

(** "Up" on the last of the three sample rows. *)
Lemma layerMenu_moves_witness :
  ∃ target cs cl,
    (2 - 1)%Z = Z.of_nat target ∧
    target ≠ 2 ∧
    target < length (hostClasses sampleWorld) ∧
    hostClasses sampleWorld !! 2 = Some cl ∧
    __moveLayer 2 (2 - 1) sampleWorld
      = (Ret tt, set_hostClasses cs sampleWorld, [EvSetClasses cs]) ∧
    cs !! target = Some cl ∧
    delete target cs = delete 2 (hostClasses sampleWorld).
Proof.
  apply (layerMenu_moves 2 (mkMove "/Move/Up" 2 (2 - 1) (bool_decide (2 >= 1)%Z))
           sampleWorld).
  - simpl. lia.
  - simpl. set_solver.
  - reflexivity.
Defined.

Lemma moveLayer_index_error_witness :
  __moveLayer 3 0 sampleWorld = (Raise IndexError, sampleWorld, []).
Proof. apply moveLayer_index_error. simpl. lia. Defined.

Lemma updateChildUIs_layout_witness :
  let run := __updateChildUIs sampleIndent (Some sampleClasses) false sampleWorld in
  ∃ hs,
    Forall2 (λ c t, ∃ ui, childUIs run.1.2 !! entryName c = Some ui ∧ topLevelUI ui = t)
      (effective (Some sampleClasses) sampleWorld) hs ∧
    last run.2
    = Some (EvFormLayout (column (sampleIndent (hierarchyDepth sampleWorld + 1)) hs)).
Proof.
  intros run.
  apply (updateChildUIs_layout sampleIndent (Some sampleClasses) false sampleWorld).
  - vm_compute. reflexivity.
  - refine (bool_decide_unpack _ _). vm_compute. exact I.
Defined.

(** A widget marked as not collapsable and built without a depth keyword. *)
Lemma initHierarchyDepth_cases_witness :
  initHierarchyDepth
    (CompoundObject {[ "UI" := CompoundObject {[ "collapsable" := BoolData false ]} ]})
    ∅ emptyWorld
  = (Raise (KeyError "hierarchyDepth"), emptyWorld, []).
Proof.
  exact (proj2 (initHierarchyDepth_cases
                  (CompoundObject
                     {[ "UI" := CompoundObject {[ "collapsable" := BoolData false ]} ]})
                  ∅ emptyWorld)
           {[ "UI" := CompoundObject {[ "collapsable" := BoolData false ]} ]}
           {[ "collapsable" := BoolData false ]} eq_refl eq_refl eq_refl).
Defined.

(** Blind data with an empty icon name, user data naming an icon. *)
Lemma classIconName_first_witness :
  __classIconName
    (Some (CompoundObject {[ "UI" := CompoundObject {[ "icon" := StringData EmptyString ]} ]}))
    (Some (CompoundObject {[ "UI" := CompoundObject {[ "icon" := StringData "blur" ]} ]}))
    emptyWorld
  = (Ret (VString "blur"), emptyWorld, []).
Proof.
  etrans; [apply classIconName_first|reflexivity].
  repeat constructor.
Defined.

Lemma commits_keep_names_distinct_witness :
  NoDup (names (hostClasses
    (_setClass sampleIndent None "glow" 3 sampleWorld).1.2)).
Proof.
  assert (NoDup (names (hostClasses sampleWorld))) as Hnd.
  { refine (bool_decide_unpack _ _). vm_compute. exact I. }
  apply (proj1 (proj2 (commits_keep_names_distinct sampleIndent sampleWorld Hnd))
           None "glow" 3%Z
           (_setClass sampleIndent None "glow" 3 sampleWorld).1.1
           (_setClass sampleIndent None "glow" 3 sampleWorld).1.2
           (_setClass sampleIndent None "glow" 3 sampleWorld).2).
  vm_compute. reflexivity.
Defined.

Lemma uis_stay_distinct_witness :
  wfUIs (_removeClass sampleIndent (Some "p1") sampleWorld).1.2.
Proof.
  apply (proj1 (proj2 (uis_stay_distinct sampleIndent sampleWorld sampleWorld_wf))
           (Some "p1")
           (_removeClass sampleIndent (Some "p1") sampleWorld).1.1
           (_removeClass sampleIndent (Some "p1") sampleWorld).1.2
           (_removeClass sampleIndent (Some "p1") sampleWorld).2).
  vm_compute. reflexivity.
Defined.
